(** * Tic-Tac-Toe (Application.cpp): game state, rule evaluation, AI move
      and the ImGui click handler, embedded as pure state-passing functions.

    The C++ file keeps the game in file-level statics ([board],
    [currentPlayer], [gameOver], [winner], [aiEnabled], [rng]).  Here they
    are the fields of one [State] record that every operation takes and
    returns.  [int] values are [Z]; no arithmetic in the file can leave the
    range of [int] (the only sums are counts between 0 and 3). *)

From Stdlib Require Import ZArith Lia Bool.
From stdpp Require Import base option list strings.

Local Open Scope Z_scope.

(** ** The random engine

    [std::mt19937] and [std::uniform_int_distribution<int>] come from the
    C++ standard library.  They are taken as an interface: a type of engine
    states, the draw [dist(rng)] for [dist(a, b)] (returning the number drawn
    and the advanced engine), and [rng.seed(x)]. *)
Class RandomEngine (Rng : Type) := {
  uniform_int_distribution : Z -> Z -> Rng -> Z * Rng;
  rng_seed : Z -> Rng
}.

(** The one guarantee of [uniform_int_distribution<int>(a, b)] the program
    relies on: with [a <= b] the number drawn lies in the closed range. *)
Class RandomEngineSpec (Rng : Type) `{RandomEngine Rng} : Prop :=
  uniform_int_range :
    forall (a b : Z) (g : Rng),
      a <= b ->
      a <= fst (uniform_int_distribution a b g) <= b.

(** A concrete engine, used to run the model on examples: a counter whose
    draw is the counter reduced into the requested range. *)
Definition counter_draw (a b : Z) (g : Z) : Z * Z :=
  (a + g mod (b - a + 1), g + 1).

#[export] Instance counter_engine : RandomEngine Z := {
  uniform_int_distribution := counter_draw;
  rng_seed := fun x => x
}.

(** ** State *)

(** [static std::array<int, 9> board;  // 0 empty, 1 = X, 2 = O] *)
Abbreviation Board := (list Z).

(** The array has exactly nine cells. *)
Definition board_ok (b : Board) : Prop := length b = 9%nat.

(** [board[i]].  Every index the program uses is in [0, 9): they come from
    [WINS], from [r * 3 + c] with [r, c < 3], or from the list of empty
    cells.  Out of range (undefined behaviour in C++) the model reads 0. *)
Definition cell (b : Board) (i : nat) : Z := default 0 (b !! i).

(** [board[i] = v].  The program writes only at indices in [0, 9); out of
    range (undefined behaviour in C++) the list is left as it is. *)
Definition set_cell (b : Board) (i : nat) (v : Z) : Board := <[i:=v]> b.

Record State (Rng : Type) := mkState {
  board : Board;
  currentPlayer : Z;      (* whose turn: 1 or 2 *)
  gameOver : bool;
  winner : Z;             (* 0 none/draw, 1 or 2 winner *)
  aiEnabled : bool;       (* play vs AI as Player 2 (O) *)
  rng : Rng
}.
Arguments mkState {Rng} _ _ _ _ _ _.
Arguments board {Rng} _.
Arguments currentPlayer {Rng} _.
Arguments gameOver {Rng} _.
Arguments winner {Rng} _.
Arguments aiEnabled {Rng} _.
Arguments rng {Rng} _.

Abbreviation Line := (nat * nat * nat)%type.

Definition WINS : list Line :=
  [ (0, 1, 2); (3, 4, 5); (6, 7, 8);
    (0, 3, 6); (1, 4, 7); (2, 5, 8);
    (0, 4, 8); (2, 4, 6) ]%nat.

(** ** Helpers *)

(** [ResetGame]: [board.fill(0); currentPlayer = 1; gameOver = false;
    winner = 0;].  [aiEnabled] and [rng] are not assigned. *)
Definition ResetGame {Rng} (s : State Rng) : State Rng :=
  mkState (replicate (length (board s)) 0) 1 false 0 (aiEnabled s) (rng s).

(** The loop of [CheckWinner] over the remaining lines. *)
Fixpoint CheckWinner_from (b : Board) (lines : list Line) : Z :=
  match lines with
  | [] => 0
  | (i, j, k) :: rest =>
      let a := cell b i in
      let b' := cell b j in
      let c := cell b k in
      if negb (a =? 0) && (a =? b') && (b' =? c) then a
      else CheckWinner_from b rest
  end.

Definition CheckWinner (b : Board) : Z := CheckWinner_from b WINS.

(** [for (int v : board) if (v == 0) return false; return true;] *)
Fixpoint no_empty_cell (vs : list Z) : bool :=
  match vs with
  | [] => true
  | v :: rest => if v =? 0 then false else no_empty_cell rest
  end.

Definition CheckDraw (b : Board) : bool :=
  if negb (CheckWinner b =? 0) then false else no_empty_cell b.

(** [cntT] and [cntE] of [FindImmediateMove]: a C++ comparison is an [int]
    0 or 1. *)
Definition count3 (v0 v1 v2 x : Z) : Z :=
  Z.b2z (v0 =? x) + Z.b2z (v1 =? x) + Z.b2z (v2 =? x).

(** The loop of [FindImmediateMove] over the remaining lines.  The C++
    function returns [bool] and writes the cell through [moveOut]; here
    [Some m] is [true] with [moveOut = m] and [None] is [false]. *)
Fixpoint FindImmediateMove_from (target : Z) (bd : Board) (lines : list Line)
  : option nat :=
  match lines with
  | [] => None
  | (a, b, c) :: rest =>
      let cntT := count3 (cell bd a) (cell bd b) (cell bd c) target in
      let cntE := count3 (cell bd a) (cell bd b) (cell bd c) 0 in
      if (cntT =? 2) && (cntE =? 1) then
        if cell bd a =? 0 then Some a
        else if cell bd b =? 0 then Some b
        else if cell bd c =? 0 then Some c
        else FindImmediateMove_from target bd rest
      else FindImmediateMove_from target bd rest
  end.

Definition FindImmediateMove (target : Z) (bd : Board) : option nat :=
  FindImmediateMove_from target bd WINS.

(** [for (int i = 0; i < 9; ++i) if (board[i] == 0) empty.push_back(i);]
    started at index [i] with [n] iterations left. *)
Fixpoint empty_from (bd : Board) (i n : nat) : list nat :=
  match n with
  | O => []
  | S n' =>
      if cell bd i =? 0 then i :: empty_from bd (S i) n'
      else empty_from bd (S i) n'
  end.

Definition empty_cells (bd : Board) : list nat := empty_from bd 0 9.

(** The three tiers of [AIMove]: the board after the placement and the
    engine after the draw, if one was made. *)
Definition AIPlace {Rng} `{RandomEngine Rng} (bd : Board) (g : Rng)
  : Board * Rng :=
  match FindImmediateMove 2 bd with
  | Some move => (set_cell bd move 2, g)                  (* win now *)
  | None =>
      match FindImmediateMove 1 bd with
      | Some move => (set_cell bd move 2, g)              (* block X *)
      | None =>
          let empty := empty_cells bd in
          match empty with
          | [] => (bd, g)
          | _ :: _ =>
              let '(k, g') :=
                uniform_int_distribution 0 (Z.of_nat (length empty) - 1) g in
              (set_cell bd (nth (Z.to_nat k) empty 0%nat) 2, g')  (* random *)
          end
      end
  end.

Definition AIMove {Rng} `{RandomEngine Rng} (s : State Rng) : State Rng :=
  if gameOver s then s
  else
    let '(bd, g) := AIPlace (board s) (rng s) in
    let w := CheckWinner bd in
    let over := negb (w =? 0) || CheckDraw bd in
    mkState bd (if negb over then 1 else currentPlayer s) over w
            (aiEnabled s) g.

(** ** Public API *)

(** The statics as the program image initialises them: a zeroed array and
    the initialisers of the declarations; a default-constructed
    [std::mt19937] is seeded with 5489. *)
Definition static_state {Rng} `{RandomEngine Rng} : State Rng :=
  mkState (replicate 9 0) 1 false 0 true (rng_seed 5489).

(** [GameStartUp]: [rng.seed((unsigned)std::time(nullptr)); ResetGame();]
    with [t] the value of [std::time(nullptr)]. *)
Definition GameStartUp {Rng} `{RandomEngine Rng} (t : Z) (s : State Rng)
  : State Rng :=
  ResetGame (mkState (board s) (currentPlayer s) (gameOver s) (winner s)
                     (aiEnabled s) (rng_seed (t mod 2 ^ 32))).

(** ** The ImGui side

    [pressed i] tells whether the user activates, in this frame, the button
    pushed with ID [i]. *)

(** Modelled from the spec: [ImGui::Button] between [ImGui::BeginDisabled]
    and [ImGui::EndDisabled] (imgui is not part of the source file).  The
    adapter "must gate click interactivity so that occupied cells, a finished
    game, or (when opponent mode is on) the non-human player's turn cannot
    emit a move intent": a disabled button is never reported as pressed. *)
Definition Button (disabled : bool) (pressed : bool) : bool :=
  pressed && negb disabled.

(** [bool disabled = gameOver || board[idx] != 0 ||
                     (aiEnabled && currentPlayer != 1);] *)
Definition disabled {Rng} (s : State Rng) (idx : nat) : bool :=
  gameOver s || negb (cell (board s) idx =? 0)
  || (aiEnabled s && negb (currentPlayer s =? 1)).

(** The body of [if (ImGui::Button(...)) { ... }]: the current player's mark
    is placed at [idx], the outcome is evaluated, and the turn passes (to
    the AI, which answers at once, or to the other player). *)
Definition PlaceMark {Rng} `{RandomEngine Rng} (idx : nat) (s : State Rng)
  : State Rng :=
  let bd := set_cell (board s) idx (currentPlayer s) in
  let w := CheckWinner bd in
  let over := negb (w =? 0) || CheckDraw bd in
  if negb over then
    if aiEnabled s then
      AIMove (mkState bd 2 over w (aiEnabled s) (rng s))
    else
      mkState bd (if currentPlayer s =? 1 then 2 else 1) over w
              (aiEnabled s) (rng s)
  else mkState bd (currentPlayer s) over w (aiEnabled s) (rng s).

(** One iteration of the two loops of [DrawBoardUI], for cell [idx]. *)
Definition DrawCell {Rng} `{RandomEngine Rng} (pressed : nat -> bool)
  (idx : nat) (s : State Rng) : State Rng :=
  if Button (disabled s idx) (pressed idx) then PlaceMark idx s else s.

(** [for (int r = 0; r < 3; ++r) for (int c = 0; c < 3; ++c)
      { int idx = r * 3 + c; ... }] *)
Definition DrawBoardUI {Rng} `{RandomEngine Rng} (pressed : nat -> bool)
  (s : State Rng) : State Rng :=
  foldl (fun s1 r =>
           foldl (fun s2 c => DrawCell pressed (r * 3 + c)%nat s2)
                 s1 (seq 0 3))
        s (seq 0 3).

(** What the user does during one frame. *)
Record Input := mkInput {
  resetPressed : bool;          (* the "Reset" button *)
  aiToggled : bool;             (* the "Play vs AI (O)" checkbox *)
  cellPressed : nat -> bool     (* the nine board buttons, by ImGui ID *)
}.

(** [RenderGame], state-changing part:
    [if (ImGui::Button("Reset")) ResetGame();
     ImGui::Checkbox("Play vs AI (O)", &aiEnabled);
     ...
     DrawBoardUI();] *)
Definition RenderGame {Rng} `{RandomEngine Rng} (inp : Input)
  (s : State Rng) : State Rng :=
  let s1 := if resetPressed inp then ResetGame s else s in
  let s2 := mkState (board s1) (currentPlayer s1) (gameOver s1) (winner s1)
                    (if aiToggled inp then negb (aiEnabled s1)
                     else aiEnabled s1)
                    (rng s1) in
  DrawBoardUI (cellPressed inp) s2.

(** The program: [GameStartUp()] once, then [RenderGame()] every frame. *)
Definition run {Rng} `{RandomEngine Rng} (t : Z) (frames : list Input)
  : State Rng :=
  foldl (fun s inp => RenderGame inp s) (GameStartUp t static_state) frames.

(** ** Vocabulary of the properties *)

(** All three cells of the line hold the mark [m], which is not Empty. *)
Definition uniform_line (b : Board) (l : Line) (m : Z) : Prop :=
  let '(i, j, k) := l in
  m <> 0 /\ cell b i = m /\ cell b j = m /\ cell b k = m.

(** The line has exactly two cells holding [target] and its third cell,
    [e], is Empty. *)
Definition completes (target : Z) (b : Board) (l : Line) (e : nat) : Prop :=
  let '(i, j, k) := l in
  (e = i /\ cell b i = 0 /\ cell b j = target /\ cell b k = target) \/
  (e = j /\ cell b j = 0 /\ cell b i = target /\ cell b k = target) \/
  (e = k /\ cell b k = 0 /\ cell b i = target /\ cell b j = target).

(** The counting test [cntT == 2 && cntE == 1] on one line. *)
Definition line_test (target : Z) (b : Board) (l : Line) : bool :=
  let '(i, j, k) := l in
  (count3 (cell b i) (cell b j) (cell b k) target =? 2)
  && (count3 (cell b i) (cell b j) (cell b k) 0 =? 1).

(** The win lines by kind, with the row-major index [row * 3 + col]. *)
Definition row_line (r : nat) : Line :=
  (r * 3 + 0, r * 3 + 1, r * 3 + 2)%nat.

Definition column_line (c : nat) : Line :=
  (0 * 3 + c, 1 * 3 + c, 2 * 3 + c)%nat.

Definition diagonal_lines : list Line :=
  [ (0 * 3 + 0, 1 * 3 + 1, 2 * 3 + 2); (0 * 3 + 2, 1 * 3 + 1, 2 * 3 + 0) ]%nat.

(** Some win line can be completed by [target]. *)
Definition has_threat (target : Z) (b : Board) : Prop :=
  exists l e, In l WINS /\ completes target b l e.

(** [l] is the first line of [WINS], in scanning order, that [target] can
    complete, and [e] is its Empty cell. *)
Definition first_threat (target : Z) (b : Board) (l : Line) (e : nat)
  : Prop :=
  exists pre post,
    WINS = pre ++ l :: post /\
    (forall l' e', In l' pre -> ~ completes target b l' e') /\
    completes target b l e.

(** No cell of the board is Empty. *)
Definition full (b : Board) : Prop :=
  forall i, (i < 9)%nat -> cell b i <> 0.

(** Number of marks on the board. *)
Definition count_marks (b : Board) : nat :=
  length (List.filter (fun v => negb (v =? 0)) b).

(** The board whose line [l] holds [m] and whose other cells are Empty. *)
Definition line_board (l : Line) (m : Z) : Board :=
  let '(i, j, k) := l in
  set_cell (set_cell (set_cell (replicate 9 0) i m) j m) k m.

(** The relation the program keeps between the board and the outcome. *)
Definition outcome_ok {Rng} (s : State Rng) : Prop :=
  board_ok (board s) /\
  winner s = CheckWinner (board s) /\
  gameOver s = negb (winner s =? 0) || CheckDraw (board s).

(** The states [AIMove] is entered in.  The function is static and has one
    call, line 180, inside [if (!gameOver)] and right after lines 173-174
    assigned [winner = CheckWinner()] and
    [gameOver = (winner != 0) || CheckDraw()]: the outcome fields agree with
    the board and the game is not over. *)
Definition AIMove_entry {Rng} (s : State Rng) : Prop :=
  outcome_ok s /\ gameOver s = false.

(** A single click, on the button of cell [idx]. *)
Definition click (idx : nat) : nat -> bool := fun i => Nat.eqb i idx.

(** Example states over the counter engine. *)

(** X has completed the middle row while O holds cells 0 and 1. *)
Definition x_won_state : State Z :=
  mkState [2; 2; 0; 1; 1; 1; 0; 0; 0] 1 true 1 true 7.

(** Frames that lead there: the AI is switched off, the two players click
    3, 0, 4, 1, 5 in turn, and the AI is switched on again. *)
Definition x_won_frames : list Input :=
  [ mkInput false true (click 3); mkInput false false (click 0);
    mkInput false false (click 4); mkInput false false (click 1);
    mkInput false false (click 5); mkInput false true (fun _ => false) ].

(** A fresh game, AI enabled. *)
Definition fresh_state : State Z :=
  mkState [0; 0; 0; 0; 0; 0; 0; 0; 0] 1 false 0 true 7.

(** A game in progress: O (cells 3, 4) and X (cells 0, 1) both threaten. *)
Definition both_threat_state : State Z :=
  mkState [1; 1; 0; 2; 2; 0; 0; 0; 1] 2 false 0 true 7.

(** A full board without a uniform line. *)
Definition drawn_board : Board := [1; 2; 1; 1; 2; 2; 2; 1; 1].

(** The full board with the game-over flag not set. *)
Definition full_running_state : State Z :=
  mkState drawn_board 2 false 0 true 7.

(** ** The status line and the controls of a frame *)

(** The part of [RenderGame] before the status text: the Reset button and
    the checkbox. *)
Definition RenderControls {Rng} (inp : Input) (s : State Rng) : State Rng :=
  let s1 := if resetPressed inp then ResetGame s else s in
  mkState (board s1) (currentPlayer s1) (gameOver s1) (winner s1)
          (if aiToggled inp then negb (aiEnabled s1) else aiEnabled s1)
          (rng s1).

(** The text [RenderGame] prints between the controls and the board:
    [ImGui::Text("Turn: %s", ...)], [ImGui::Text("Result: Draw")] or
    [ImGui::Text("Winner: %s", ...)]. *)
Definition status_line {Rng} (s : State Rng) : string :=
  if negb (gameOver s) then
    if aiEnabled s then
      String.app "Turn: "
        (if currentPlayer s =? 1 then "Player 1 (X)" else "AI (O)")
    else
      String.app "Turn: "
        (if currentPlayer s =? 1 then "Player 1 (X)" else "Player 2 (O)")
  else
    if winner s =? 0 then "Result: Draw"%string
    else
      String.app "Winner: "
        (if winner s =? 1 then "Player 1 (X)"
         else if aiEnabled s then "AI (O)" else "Player 2 (O)").


(** [EndOfTurn]: kept for compatibility, empty body. *)
Definition EndOfTurn {Rng} (s : State Rng) : State Rng := s.

(** ** Further vocabulary *)

(** A cell value the program writes: Empty, X or O. *)
Definition valid_cell (v : Z) : Prop := v = 0 \/ v = 1 \/ v = 2.

(** Number of cells holding the mark [m]. *)
Definition count_of (m : Z) (b : Board) : nat :=
  length (List.filter (fun v => v =? m) b).

(** X has as many marks as O, or one more; while the game runs the turn
    tells which. *)
Definition balanced {Rng} (s : State Rng) : Prop :=
  if gameOver s then
    count_of 1 (board s) = count_of 2 (board s) \/
    count_of 1 (board s) = S (count_of 2 (board s))
  else
    (currentPlayer s = 1 /\ count_of 1 (board s) = count_of 2 (board s)) \/
    (currentPlayer s = 2 /\ count_of 1 (board s) = S (count_of 2 (board s))).

(** Every uniform win line carries the mark recorded in [winner]. *)
Definition winner_unique {Rng} (s : State Rng) : Prop :=
  forall l m, In l WINS -> uniform_line (board s) l m -> m = winner s.

(** What holds of every state between two frames. *)
Definition game_inv {Rng} (s : State Rng) : Prop :=
  outcome_ok s /\
  Forall valid_cell (board s) /\
  (currentPlayer s = 1 \/ currentPlayer s = 2) /\
  winner_unique s /\
  balanced s.

(** X threatens through one cell only: every line X can complete has the
    same Empty cell. *)
Definition single_threat (target : Z) (b : Board) : Prop :=
  forall l l' e e',
    In l WINS -> In l' WINS ->
    completes target b l e -> completes target b l' e' -> e = e'.

(** Frames in which the checkbox is left alone. *)
Definition no_toggle (frames : list Input) : Prop :=
  Forall (fun inp => aiToggled inp = false) frames.

(** Frames that leave O to move in a two-player game and then switch the AI
    on: the checkbox off with a click on cell 0, then the checkbox again. *)
Definition lock_frames : list Input :=
  [ mkInput false true (click 0); mkInput false true (fun _ => false) ].

(** O (cell 4) cannot win at once; X (cells 0, 1) threatens cell 2. *)
Definition block_state : State Z :=
  mkState [1; 1; 0; 0; 2; 0; 0; 0; 0] 2 false 0 true 7.

(** A two-player game with X to move: X holds 0 and 1, O holds 3 and 4. *)
Definition two_player_state : State Z :=
  mkState [1; 1; 0; 2; 2; 0; 0; 0; 0] 1 false 0 false 7.

(** The position of [both_threat_state] before X's last mark on cell 8. *)
Definition before_threat_state : State Z :=
  mkState [1; 1; 0; 2; 2; 0; 0; 0; 0] 1 false 0 true 7.

(** ** Basic facts about the board *)

Lemma cell_set_eq (b : Board) (i : nat) (v : Z) :
  (i < length b)%nat -> cell (set_cell b i v) i = v.
Proof.
  intros Hi. unfold cell, set_cell.
  by rewrite list_lookup_insert_eq.
Qed.

Lemma cell_set_ne (b : Board) (i j : nat) (v : Z) :
  i <> j -> cell (set_cell b i v) j = cell b j.
Proof.
  intros Hne. unfold cell, set_cell.
  by rewrite list_lookup_insert_ne.
Qed.

Lemma length_set_cell (b : Board) (i : nat) (v : Z) :
  length (set_cell b i v) = length b.
Proof. apply length_insert. Qed.

Lemma board_ok_set_cell (b : Board) (i : nat) (v : Z) :
  board_ok b -> board_ok (set_cell b i v).
Proof. unfold board_ok. by rewrite length_set_cell. Qed.

Lemma cell_lt_length (b : Board) (i : nat) :
  cell b i <> 0 -> (i < length b)%nat.
Proof.
  unfold cell. intros H.
  destruct (b !! i) eqn:E; [by eapply lookup_lt_Some|]. by destruct H.
Qed.

(** Every index of a win line is a cell of the board, and the three are
    distinct. *)
Lemma WINS_range (i j k : nat) :
  In (i, j, k) WINS ->
  (i < 9 /\ j < 9 /\ k < 9)%nat /\ i <> j /\ i <> k /\ j <> k.
Proof.
  unfold WINS. simpl.
  intros H. repeat (destruct H as [H | H]; [inversion H; subst; lia|]).
  destruct H.
Qed.

(** ** CheckWinner *)

(** The test of [CheckWinner] on one line is the uniformity of that line. *)
Lemma line_test_true (b : Board) (i j k : nat) :
  negb (cell b i =? 0) && (cell b i =? cell b j) && (cell b j =? cell b k)
    = true <->
  uniform_line b (i, j, k) (cell b i).
Proof.
  unfold uniform_line.
  rewrite !andb_true_iff, negb_true_iff, Z.eqb_neq, !Z.eqb_eq.
  split.
  - intros [[Ha Hab] Hbc]. repeat split; congruence.
  - intros (Ha & _ & Hb & Hc). repeat split; congruence.
Qed.

Lemma uniform_line_mark (b : Board) (i j k : nat) (m : Z) :
  uniform_line b (i, j, k) m -> m = cell b i.
Proof. intros (_ & Hi & _). by symmetry. Qed.

(** A non-zero result is the mark of a uniform line among those scanned. *)
Lemma CheckWinner_from_hit (b : Board) (lines : list Line) :
  CheckWinner_from b lines <> 0 ->
  exists l, In l lines /\ uniform_line b l (CheckWinner_from b lines).
Proof.
  induction lines as [| [[i j] k] rest IH]; simpl; [done|].
  destruct (negb (cell b i =? 0) && (cell b i =? cell b j)
            && (cell b j =? cell b k)) eqn:Htest.
  - intros _. exists (i, j, k). split; [by left|].
    by apply line_test_true.
  - intros Hw. destruct (IH Hw) as (l & Hin & Hu).
    exists l. split; [by right | done].
Qed.

(** The result is zero exactly when none of the scanned lines is uniform. *)
Lemma CheckWinner_from_none (b : Board) (lines : list Line) :
  CheckWinner_from b lines = 0 <->
  (forall l m, In l lines -> ~ uniform_line b l m).
Proof.
  induction lines as [| [[i j] k] rest IH]; simpl.
  - split; [intros _ l m [] | done].
  - destruct (negb (cell b i =? 0) && (cell b i =? cell b j)
              && (cell b j =? cell b k)) eqn:Htest.
    + apply line_test_true in Htest. split.
      * intros Hz. destruct Htest as (Hne & _). by destruct Hne.
      * intros Hno. destruct (Hno (i, j, k) (cell b i)); [by left | done].
    + rewrite IH. split.
      * intros Hno l m [<- | Hin]; [|by apply Hno].
        intros Hu. pose proof (uniform_line_mark _ _ _ _ _ Hu) as ->.
        apply line_test_true in Hu. congruence.
      * intros Hno l m Hin. apply Hno. by right.
Qed.

(** The scan stops at the first uniform line. *)
Lemma CheckWinner_from_first (b : Board) (pre post : list Line) (l : Line)
  (m : Z) :
  (forall l' m', In l' pre -> ~ uniform_line b l' m') ->
  uniform_line b l m ->
  CheckWinner_from b (pre ++ l :: post) = m.
Proof.
  intros Hpre Hu. induction pre as [| [[i j] k] pre IH]; simpl.
  - destruct l as [[i j] k].
    pose proof (uniform_line_mark _ _ _ _ _ Hu) as ->.
    apply line_test_true in Hu. by rewrite Hu.
  - destruct (negb (cell b i =? 0) && (cell b i =? cell b j)
              && (cell b j =? cell b k)) eqn:Htest.
    + apply line_test_true in Htest.
      destruct (Hpre (i, j, k) (cell b i)); [by left | done].
    + apply IH. intros l' m' Hin. apply Hpre. by right.
Qed.

Lemma CheckWinner_line_board (l : Line) (m : Z) :
  In l WINS -> m = 1 \/ m = 2 -> CheckWinner (line_board l m) = m.
Proof.
  unfold WINS. simpl. intros Hin Hm.
  repeat (destruct Hin as [<- | Hin];
          [by destruct Hm as [-> | ->]; vm_compute|]).
  destruct Hin.
Qed.

(** C1.  [CheckWinner] scans the eight lines of [WINS]: a non-zero result is
    the common mark of a line whose three cells hold that same non-Empty
    value; the result is 0 (None) exactly when no line of [WINS] is uniform
    and non-Empty, so a qualifying line always yields a mark; and the board
    with one win line set to X (1) or O (2) and every other cell Empty
    yields that mark. *)
Theorem C1_CheckWinner_spec :
  length WINS = 8%nat /\
  (forall b : Board,
      (CheckWinner b <> 0 ->
       exists l, In l WINS /\ uniform_line b l (CheckWinner b)) /\
      (CheckWinner b = 0 <->
       ~ exists l m, In l WINS /\ uniform_line b l m)) /\
  (forall (l : Line) (m : Z),
      In l WINS -> m = 1 \/ m = 2 -> CheckWinner (line_board l m) = m).
Proof.
  split; [reflexivity|]. split.
  - intros b. split.
    + apply CheckWinner_from_hit.
    + unfold CheckWinner. rewrite CheckWinner_from_none. split.
      * intros Hno (l & m & Hin & Hu). by apply (Hno l m).
      * intros Hno l m Hin Hu. apply Hno. by exists l, m.
  - apply CheckWinner_line_board.
Qed.

(** ** CheckDraw *)

Lemma cell_cons_0 (v : Z) (vs : list Z) : cell (v :: vs) 0 = v.
Proof. reflexivity. Qed.

Lemma cell_cons_S (v : Z) (vs : list Z) (i : nat) :
  cell (v :: vs) (S i) = cell vs i.
Proof. reflexivity. Qed.

(** The range-for loop of [CheckDraw] finds no zero exactly when every cell
    of the array is non-zero. *)
Lemma no_empty_cell_spec (vs : list Z) :
  no_empty_cell vs = true <->
  (forall i, (i < length vs)%nat -> cell vs i <> 0).
Proof.
  induction vs as [| v vs IH]; simpl.
  - split; [intros _ i Hi; lia | done].
  - destruct (Z.eqb_spec v 0) as [-> | Hv].
    + split; [done|]. intros H. destruct (H 0%nat); [lia | done].
    + rewrite IH. split.
      * intros H [| i] Hi; [by rewrite cell_cons_0|].
        rewrite cell_cons_S. apply H. lia.
      * intros H i Hi. rewrite <- (cell_cons_S v). apply H. lia.
Qed.

Lemma no_empty_cell_full (b : Board) :
  board_ok b -> (no_empty_cell b = true <-> full b).
Proof.
  unfold board_ok, full. intros Hlen.
  rewrite no_empty_cell_spec, Hlen. done.
Qed.

Lemma CheckDraw_spec (b : Board) :
  board_ok b -> (CheckDraw b = true <-> CheckWinner b = 0 /\ full b).
Proof.
  intros Hok. unfold CheckDraw.
  destruct (Z.eqb_spec (CheckWinner b) 0) as [Hw | Hw]; simpl.
  - rewrite (no_empty_cell_full b Hok). tauto.
  - split; [done | tauto].
Qed.

(** C5.  On a nine-cell board [CheckDraw] is true exactly when
    [CheckWinner] returns 0 (None) and no cell is Empty; in particular a
    board with no Empty cell and no uniform non-Empty line gives
    [CheckDraw() == true] and [CheckWinner() == 0]. *)
Theorem C5_CheckDraw_spec (b : Board) :
  board_ok b ->
  (CheckDraw b = true <-> CheckWinner b = 0 /\ full b) /\
  (full b ->
   (~ exists l m, In l WINS /\ uniform_line b l m) ->
   CheckDraw b = true /\ CheckWinner b = 0).
Proof.
  intros Hok. split; [by apply CheckDraw_spec|].
  intros Hfull Hno.
  assert (CheckWinner b = 0) as Hw.
  { apply CheckWinner_from_none. intros l m Hin Hu. apply Hno. by exists l, m. }
  split; [|done]. by apply CheckDraw_spec.
Qed.

(** ** ResetGame *)

Lemma cell_replicate_0 (n i : nat) : cell (replicate n 0) i = 0.
Proof.
  unfold cell. destruct (replicate n 0 !! i) eqn:E; [|done].
  apply lookup_replicate in E. by destruct E as [-> _].
Qed.

Lemma ResetGame_idem {Rng} (s : State Rng) :
  ResetGame (ResetGame s) = ResetGame s.
Proof. unfold ResetGame. simpl. by rewrite length_replicate. Qed.

(** C7.  [ResetGame] takes any state (with its nine-cell board) to the
    initial game state — all nine cells Empty, [currentPlayer = 1] (X),
    [gameOver = false], [winner = 0] (None), which are the values
    [GameStartUp] establishes at program start — and a second [ResetGame]
    in a row changes nothing. *)
Theorem C7_ResetGame_initial {Rng} `{RandomEngine Rng} (s : State Rng) :
  board_ok (board s) ->
  (board (ResetGame s) = replicate 9 0 /\
   (forall i, (i < 9)%nat -> cell (board (ResetGame s)) i = 0) /\
   currentPlayer (ResetGame s) = 1 /\
   gameOver (ResetGame s) = false /\
   winner (ResetGame s) = 0) /\
  (forall t : Z,
      board (ResetGame s) = board (GameStartUp t static_state) /\
      currentPlayer (ResetGame s) = currentPlayer (GameStartUp t static_state) /\
      gameOver (ResetGame s) = gameOver (GameStartUp t static_state) /\
      winner (ResetGame s) = winner (GameStartUp t static_state)) /\
  ResetGame (ResetGame s) = ResetGame s.
Proof.
  unfold board_ok. intros Hlen. split; [|split].
  - unfold ResetGame. simpl. rewrite Hlen. repeat split.
    intros i _. apply cell_replicate_0.
  - intros t. unfold GameStartUp, ResetGame, static_state. simpl.
    by rewrite Hlen.
  - apply ResetGame_idem.
Qed.

(** ** FindImmediateMove *)

Ltac case_cells b i j k target :=
  destruct (Z.eqb_spec (cell b i) target);
  destruct (Z.eqb_spec (cell b j) target);
  destruct (Z.eqb_spec (cell b k) target);
  destruct (Z.eqb_spec (cell b i) 0);
  destruct (Z.eqb_spec (cell b j) 0);
  destruct (Z.eqb_spec (cell b k) 0).

(** For a mark (a non-zero target) the counting test holds exactly when two
    cells of the line hold the mark and the third is Empty. *)
Lemma line_test_completes (target : Z) (b : Board) (l : Line) :
  target <> 0 ->
  (line_test target b l = true <-> exists e, completes target b l e).
Proof.
  intros Ht. destruct l as [[i j] k]. unfold line_test, completes, count3.
  split.
  - intros Htest.
    case_cells b i j k target; simpl in Htest; try discriminate;
      try congruence;
      first [ exists i; left; repeat split; congruence
            | exists j; right; left; repeat split; congruence
            | exists k; right; right; repeat split; congruence ].
  - intros [e [H | [H | H]]]; destruct H as (_ & H0 & H1 & H2);
      rewrite H0, H1, H2; rewrite Z.eqb_refl;
      destruct (Z.eqb_spec 0 target); destruct (Z.eqb_spec target 0);
      try congruence; reflexivity.
Qed.

(** On a line that passes the test, the cell returned is its Empty cell. *)
Lemma FindImmediateMove_from_here (target : Z) (b : Board) (i j k e : nat)
  (rest : list Line) :
  target <> 0 ->
  completes target b (i, j, k) e ->
  FindImmediateMove_from target b ((i, j, k) :: rest) = Some e.
Proof.
  intros Ht Hc.
  assert (line_test target b (i, j, k) = true) as Htest.
  { apply line_test_completes; [done | by exists e]. }
  simpl in *. rewrite Htest.
  destruct Hc as [H | [H | H]]; destruct H as (-> & H0 & H1 & H2).
  - by rewrite H0.
  - rewrite H1, H0. by destruct (Z.eqb_spec target 0).
  - rewrite H1, H2, H0. by destruct (Z.eqb_spec target 0).
Qed.

Lemma FindImmediateMove_from_skip (target : Z) (b : Board) (l : Line)
  (rest : list Line) :
  line_test target b l = false ->
  FindImmediateMove_from target b (l :: rest)
  = FindImmediateMove_from target b rest.
Proof.
  destruct l as [[i j] k]. simpl. by intros ->.
Qed.

(** The scan returns the Empty cell of the first line that passes. *)
Lemma FindImmediateMove_from_first (target : Z) (b : Board)
  (pre post : list Line) (l : Line) (e : nat) :
  target <> 0 ->
  (forall l' e', In l' pre -> ~ completes target b l' e') ->
  completes target b l e ->
  FindImmediateMove_from target b (pre ++ l :: post) = Some e.
Proof.
  intros Ht Hpre Hc. induction pre as [| l0 pre IH].
  - destruct l as [[i j] k]. by apply FindImmediateMove_from_here.
  - rewrite <- app_comm_cons, FindImmediateMove_from_skip.
    + apply IH. intros l' e' Hin. apply Hpre. by right.
    + destruct (line_test target b l0) eqn:Htest; [|done].
      apply line_test_completes in Htest as [e' He']; [|done].
      destruct (Hpre l0 e'); [by left | done].
Qed.

Lemma FindImmediateMove_from_none (target : Z) (b : Board)
  (lines : list Line) :
  target <> 0 ->
  (forall l e, In l lines -> ~ completes target b l e) ->
  FindImmediateMove_from target b lines = None.
Proof.
  intros Ht Hno. induction lines as [| l0 rest IH]; [done|].
  rewrite FindImmediateMove_from_skip.
  - apply IH. intros l e Hin. apply Hno. by right.
  - destruct (line_test target b l0) eqn:Htest; [|done].
    apply line_test_completes in Htest as [e' He']; [|done].
    destruct (Hno l0 e'); [by left | done].
Qed.

(** Conversely, a returned cell is the Empty cell of the first passing
    line. *)
Lemma FindImmediateMove_from_Some (target : Z) (b : Board)
  (lines : list Line) (e : nat) :
  target <> 0 ->
  FindImmediateMove_from target b lines = Some e ->
  exists pre l post,
    lines = pre ++ l :: post /\
    (forall l' e', In l' pre -> ~ completes target b l' e') /\
    completes target b l e.
Proof.
  intros Ht. induction lines as [| l0 rest IH]; [done|].
  destruct (line_test target b l0) eqn:Htest.
  - pose proof Htest as Hc.
    apply line_test_completes in Hc as [e' He']; [|done].
    destruct l0 as [[i j] k].
    rewrite (FindImmediateMove_from_here target b i j k e' rest Ht He').
    intros [= <-]. exists [], (i, j, k), rest.
    split; [done|]. split; [intros ? ? [] | done].
  - rewrite FindImmediateMove_from_skip by done.
    intros Hf. destruct (IH Hf) as (pre & l & post & -> & Hpre & Hc).
    exists (l0 :: pre), l, post. split; [done|]. split; [|done].
    intros l' e' [<- | Hin]; [|by apply Hpre].
    intros Hc'.
    assert (line_test target b l0 = true) as Habs; [|congruence].
    apply line_test_completes; [done | by exists e'].
Qed.

Lemma completes_empty (target : Z) (b : Board) (l : Line) (e : nat) :
  completes target b l e -> cell b e = 0.
Proof.
  destruct l as [[i j] k].
  by intros [H | [H | H]]; destruct H as (-> & H0 & _).
Qed.

Lemma completes_in_line (target : Z) (b : Board) (i j k e : nat) :
  completes target b (i, j, k) e -> e = i \/ e = j \/ e = k.
Proof. intros [H | [H | H]]; destruct H as (-> & _); tauto. Qed.

(** Whatever the target, a returned cell is Empty and lies on a scanned
    line. *)
Lemma FindImmediateMove_from_empty (target : Z) (b : Board)
  (lines : list Line) (e : nat) :
  FindImmediateMove_from target b lines = Some e ->
  cell b e = 0 /\
  exists i j k, In (i, j, k) lines /\ (e = i \/ e = j \/ e = k).
Proof.
  induction lines as [| [[i j] k] rest IH]; [done|]. simpl.
  assert (FindImmediateMove_from target b rest = Some e ->
          cell b e = 0 /\
          exists i0 j0 k0, (((i, j, k) = (i0, j0, k0)) \/ In (i0, j0, k0) rest)
                           /\ (e = i0 \/ e = j0 \/ e = k0)) as Hrest.
  { intros Hf. destruct (IH Hf) as (He & i0 & j0 & k0 & Hin & Hor).
    split; [done|]. exists i0, j0, k0. split; [by right | done]. }
  destruct ((count3 (cell b i) (cell b j) (cell b k) target =? 2)
            && (count3 (cell b i) (cell b j) (cell b k) 0 =? 1)); [|done].
  destruct (Z.eqb_spec (cell b i) 0) as [Hi | _].
  { intros [= <-]. split; [done|]. exists i, j, k. split; [by left | tauto]. }
  destruct (Z.eqb_spec (cell b j) 0) as [Hj | _].
  { intros [= <-]. split; [done|]. exists i, j, k. split; [by left | tauto]. }
  destruct (Z.eqb_spec (cell b k) 0) as [Hk | _]; [|done].
  intros [= <-]. split; [done|]. exists i, j, k. split; [by left | tauto].
Qed.

Lemma FindImmediateMove_cell (target : Z) (b : Board) (e : nat) :
  FindImmediateMove target b = Some e -> cell b e = 0 /\ (e < 9)%nat.
Proof.
  intros Hf. apply FindImmediateMove_from_empty in Hf.
  destruct Hf as (He & i & j & k & Hin & Hor). split; [done|].
  apply WINS_range in Hin. lia.
Qed.

Lemma FindImmediateMove_first_threat (target : Z) (b : Board) (e : nat) :
  target <> 0 ->
  (FindImmediateMove target b = Some e <->
   exists l, first_threat target b l e).
Proof.
  intros Ht. unfold FindImmediateMove, first_threat. split.
  - intros Hf. apply FindImmediateMove_from_Some in Hf; [|done].
    destruct Hf as (pre & l & post & Heq & Hpre & Hc).
    by exists l, pre, post.
  - intros (l & pre & post & -> & Hpre & Hc).
    by apply FindImmediateMove_from_first.
Qed.

Lemma FindImmediateMove_None (target : Z) (b : Board) :
  target <> 0 ->
  (FindImmediateMove target b = None <-> ~ has_threat target b).
Proof.
  intros Ht. unfold has_threat. split.
  - intros Hn (l & e & Hin & Hc).
    apply list_elem_of_In, list_elem_of_split in Hin as (pre & post & Heq).
    assert (exists e', FindImmediateMove target b = Some e') as [e' He'];
      [|congruence].
    unfold FindImmediateMove. rewrite Heq. clear Heq Hn.
    induction pre as [| l0 pre IH].
    + destruct l as [[i j] k]. exists e.
      by apply FindImmediateMove_from_here.
    + rewrite <- app_comm_cons.
      destruct (line_test target b l0) eqn:Htest.
      * apply line_test_completes in Htest as [e0 He0]; [|done].
        destruct l0 as [[i j] k]. exists e0.
        by apply FindImmediateMove_from_here.
      * destruct IH as [e' He']. exists e'.
        by rewrite FindImmediateMove_from_skip.
  - intros Hno. apply FindImmediateMove_from_none; [done|].
    intros l e Hin Hc. apply Hno. by exists l, e.
Qed.

(** ** The list of empty cells *)

Lemma empty_from_In (b : Board) (i n e : nat) :
  In e (empty_from b i n) <-> (i <= e < i + n)%nat /\ cell b e = 0.
Proof.
  revert i. induction n as [| n IH]; intros i; simpl.
  - split; [done | lia].
  - destruct (Z.eqb_spec (cell b i) 0) as [Hz | Hnz]; simpl; rewrite IH.
    + split.
      * intros [<- | [Hr He]]; [split; [lia | done] | split; [lia | done]].
      * intros [Hr He]. destruct (decide (i = e)) as [-> | Hne];
          [by left | right; split; [lia | done]].
    + split.
      * intros [Hr He]. split; [lia | done].
      * intros [Hr He]. split; [|done].
        destruct (decide (i = e)) as [-> | Hne]; [done | lia].
Qed.

Lemma empty_cells_In (b : Board) (e : nat) :
  In e (empty_cells b) <-> (e < 9)%nat /\ cell b e = 0.
Proof. unfold empty_cells. rewrite empty_from_In. intuition lia. Qed.

(** A bounded search for an Empty cell either finds one or shows there is
    none. *)
Lemma find_empty_below (b : Board) (n : nat) :
  (forall i, (i < n)%nat -> cell b i <> 0) \/
  (exists i, (i < n)%nat /\ cell b i = 0).
Proof.
  induction n as [| n [Hall | (i & Hi & Hz)]].
  - left. intros i Hi. lia.
  - destruct (Z.eqb_spec (cell b n) 0) as [Hz | Hnz].
    + right. exists n. split; [lia | done].
    + left. intros i Hi.
      destruct (decide (i = n)) as [-> | Hne]; [done | apply Hall; lia].
  - right. exists i. split; [lia | done].
Qed.

Lemma not_full_empty (b : Board) :
  ~ full b <-> exists i, (i < 9)%nat /\ cell b i = 0.
Proof.
  split.
  - intros Hnf. destruct (find_empty_below b 9) as [Hall | Hex]; [|done].
    by destruct Hnf.
  - intros (i & Hi & Hz) Hfull. by apply (Hfull i).
Qed.

Lemma empty_cells_full (b : Board) : full b -> empty_cells b = [].
Proof.
  intros Hfull. destruct (empty_cells b) as [| e es] eqn:E; [done|].
  assert (In e (empty_cells b)) as Hin by (rewrite E; by left).
  apply empty_cells_In in Hin as [Hlt Hz]. by destruct (Hfull e).
Qed.

(** ** The three tiers of AIMove *)

Lemma AIPlace_win {Rng} `{RandomEngine Rng} (b : Board) (g : Rng) (e : nat) :
  FindImmediateMove 2 b = Some e -> AIPlace b g = (set_cell b e 2, g).
Proof. unfold AIPlace. by intros ->. Qed.

Lemma AIPlace_block {Rng} `{RandomEngine Rng} (b : Board) (g : Rng)
  (e : nat) :
  FindImmediateMove 2 b = None ->
  FindImmediateMove 1 b = Some e ->
  AIPlace b g = (set_cell b e 2, g).
Proof. unfold AIPlace. by intros -> ->. Qed.

(** In the third tier the cell drawn is one of the Empty cells. *)
Lemma AIPlace_random {Rng} `{RandomEngineSpec Rng} (b : Board) (g : Rng) :
  FindImmediateMove 2 b = None ->
  FindImmediateMove 1 b = None ->
  ~ full b ->
  exists e g', In e (empty_cells b) /\ AIPlace b g = (set_cell b e 2, g').
Proof.
  intros H2 H1 Hnf. unfold AIPlace. rewrite H2, H1.
  apply not_full_empty in Hnf as (i & Hi & Hz).
  assert (In i (empty_cells b)) as Hin by (by apply empty_cells_In).
  destruct (empty_cells b) as [| e0 es] eqn:E; [done|].
  cbv zeta.
  pose proof (uniform_int_range 0 (Z.of_nat (length (e0 :: es)) - 1) g)
    as Hrange.
  destruct (uniform_int_distribution 0 (Z.of_nat (length (e0 :: es)) - 1) g)
    as [k g'] eqn:Hdraw.
  simpl fst in Hrange.
  assert (0 <= k <= Z.of_nat (length (e0 :: es)) - 1) as Hk.
  { apply Hrange. simpl length. lia. }
  exists (nth (Z.to_nat k) (e0 :: es) 0%nat), g'. split; [|done].
  apply nth_In. lia.
Qed.

Lemma AIPlace_full {Rng} `{RandomEngine Rng} (b : Board) (g : Rng) :
  full b -> AIPlace b g = (b, g).
Proof.
  intros Hfull. unfold AIPlace.
  destruct (FindImmediateMove 2 b) as [e |] eqn:H2.
  { apply FindImmediateMove_cell in H2 as [Hz Hlt]. by destruct (Hfull e). }
  destruct (FindImmediateMove 1 b) as [e |] eqn:H1.
  { apply FindImmediateMove_cell in H1 as [Hz Hlt]. by destruct (Hfull e). }
  by rewrite empty_cells_full.
Qed.

(** Whenever a cell is Empty, one of the three tiers places the O, and it
    places it on an Empty cell. *)
Lemma AIPlace_places {Rng} `{RandomEngineSpec Rng} (b : Board) (g : Rng) :
  ~ full b ->
  exists e g',
    (e < 9)%nat /\ cell b e = 0 /\ AIPlace b g = (set_cell b e 2, g').
Proof.
  intros Hnf.
  destruct (FindImmediateMove 2 b) as [e |] eqn:H2.
  { exists e, g. pose proof (FindImmediateMove_cell _ _ _ H2) as [Hz Hlt].
    repeat split; [done | done | by apply AIPlace_win]. }
  destruct (FindImmediateMove 1 b) as [e |] eqn:H1.
  { exists e, g. pose proof (FindImmediateMove_cell _ _ _ H1) as [Hz Hlt].
    repeat split; [done | done | by apply AIPlace_block]. }
  destruct (AIPlace_random b g H2 H1 Hnf) as (e & g' & Hin & Heq).
  apply empty_cells_In in Hin as [Hlt Hz]. by exists e, g'.
Qed.

Lemma AIPlace_length {Rng} `{RandomEngine Rng} (b : Board) (g : Rng) :
  length (fst (AIPlace b g)) = length b.
Proof.
  unfold AIPlace.
  destruct (FindImmediateMove 2 b); [apply length_set_cell|].
  destruct (FindImmediateMove 1 b); [apply length_set_cell|].
  destruct (empty_cells b); [done|]. cbv zeta.
  destruct (uniform_int_distribution _ _ _). apply length_set_cell.
Qed.

(** [AIMove] once past its [if (gameOver) return;]. *)
Lemma AIMove_running {Rng} `{RandomEngine Rng} (s : State Rng) :
  gameOver s = false ->
  AIMove s =
  let bd := fst (AIPlace (board s) (rng s)) in
  let over := negb (CheckWinner bd =? 0) || CheckDraw bd in
  mkState bd (if negb over then 1 else currentPlayer s) over
          (CheckWinner bd) (aiEnabled s) (snd (AIPlace (board s) (rng s))).
Proof.
  intros Hrun. unfold AIMove. rewrite Hrun.
  by destruct (AIPlace (board s) (rng s)).
Qed.

Lemma AIMove_over {Rng} `{RandomEngine Rng} (s : State Rng) :
  gameOver s = true -> AIMove s = s.
Proof. unfold AIMove. by intros ->. Qed.

(** C9.  On a board with no Empty cell [AIMove] places no mark: the board
    after the call is the board before it, cell by cell. *)
Theorem C9_AIMove_full_board {Rng} `{RandomEngine Rng} (s : State Rng) :
  full (board s) ->
  board (AIMove s) = board s /\
  (forall i, cell (board (AIMove s)) i = cell (board s) i).
Proof.
  intros Hfull.
  assert (board (AIMove s) = board s) as Heq.
  { destruct (gameOver s) eqn:Hover.
    - by rewrite AIMove_over.
    - rewrite AIMove_running by done. simpl. by rewrite AIPlace_full. }
  split; [done|]. intros i. by rewrite Heq.
Qed.

Lemma first_threat_unique (target : Z) (b : Board) (l l' : Line)
  (e e' : nat) :
  target <> 0 ->
  first_threat target b l e -> first_threat target b l' e' -> e = e'.
Proof.
  intros Ht H1 H2.
  assert (FindImmediateMove target b = Some e) as E1
    by (apply FindImmediateMove_first_threat; [done | by exists l]).
  assert (FindImmediateMove target b = Some e') as E2
    by (apply FindImmediateMove_first_threat; [done | by exists l']).
  congruence.
Qed.

(** C8.  [WINS] lists the three rows, then the three columns, then the two
    diagonals.  For either mark, [FindImmediateMove] returns a cell exactly
    when it is the Empty cell of the first line, in that order, holding two
    cells of the mark and one Empty cell, and returns nothing exactly when
    no line is such; that cell is unique, and it is where the win tier and
    the block tier of [AIMove] put the O, whatever the random engine. *)
Theorem C8_first_line_in_scan_order {Rng} `{RandomEngine Rng}
  (b : Board) (g : Rng) :
  WINS = map row_line [0; 1; 2]%nat ++ map column_line [0; 1; 2]%nat
         ++ diagonal_lines /\
  (forall target : Z,
      target = 1 \/ target = 2 ->
      (forall e, FindImmediateMove target b = Some e <->
                 exists l, first_threat target b l e) /\
      (FindImmediateMove target b = None <-> ~ has_threat target b) /\
      (forall l l' e e',
          first_threat target b l e -> first_threat target b l' e' ->
          e = e')) /\
  (forall l e,
      first_threat 2 b l e -> AIPlace b g = (set_cell b e 2, g)) /\
  (forall l e,
      ~ has_threat 2 b -> first_threat 1 b l e ->
      AIPlace b g = (set_cell b e 2, g)).
Proof.
  split; [reflexivity|]. split; [|split].
  - intros target Ht.
    assert (target <> 0) as Hnz by lia.
    split; [|split].
    + intros e. by apply FindImmediateMove_first_threat.
    + by apply FindImmediateMove_None.
    + intros l l' e e'. by apply first_threat_unique.
  - intros l e Hft. apply AIPlace_win.
    apply FindImmediateMove_first_threat; [lia | by exists l].
  - intros l e Hno Hft. apply AIPlace_block.
    + by apply FindImmediateMove_None.
    + apply FindImmediateMove_first_threat; [lia | by exists l].
Qed.

(** ** Completing a line wins *)

Lemma completes_uniform_after (b : Board) (l : Line) (e : nat) (m : Z) :
  m <> 0 -> (e < length b)%nat ->
  completes m b l e -> uniform_line (set_cell b e m) l m.
Proof.
  intros Hm He. destruct l as [[i j] k]. unfold completes, uniform_line.
  intros [Hc | [Hc | Hc]]; destruct Hc as (-> & H0 & H1 & H2);
    (split; [done|]);
    repeat split;
    first [ by apply cell_set_eq
          | rewrite cell_set_ne; [done | congruence] ].
Qed.

Lemma uniform_line_before (b : Board) (l : Line) (e : nat) (m w : Z) :
  (e < length b)%nat -> w <> m ->
  uniform_line (set_cell b e m) l w -> uniform_line b l w.
Proof.
  intros He Hwm. destruct l as [[i j] k]. unfold uniform_line.
  assert (forall x, cell (set_cell b e m) x = w -> cell b x = w) as Hold.
  { intros x Hx. destruct (decide (e = x)) as [-> | Hne].
    - rewrite cell_set_eq in Hx by done. congruence.
    - by rewrite cell_set_ne in Hx. }
  intros (Hw & Hi & Hj & Hk). repeat split; auto.
Qed.

(** Completing a line with [m] on a board without a winner makes [m] the
    winner. *)
Lemma CheckWinner_after_completion (b : Board) (l : Line) (e : nat)
  (m : Z) :
  m <> 0 -> (e < length b)%nat -> In l WINS ->
  completes m b l e -> CheckWinner b = 0 ->
  CheckWinner (set_cell b e m) = m.
Proof.
  intros Hm He Hin Hc Hw0.
  pose proof (completes_uniform_after b l e m Hm He Hc) as Hu.
  assert (CheckWinner (set_cell b e m) <> 0) as Hnz.
  { intros Hz. unfold CheckWinner in Hz.
    rewrite CheckWinner_from_none in Hz. by apply (Hz l m). }
  destruct (CheckWinner_from_hit _ _ Hnz) as (l' & Hin' & Hu').
  fold (CheckWinner (set_cell b e m)) in Hu'.
  destruct (decide (CheckWinner (set_cell b e m) = m)) as [|Hne]; [done|].
  apply uniform_line_before in Hu'; [|done|done].
  unfold CheckWinner in Hw0. rewrite CheckWinner_from_none in Hw0.
  by destruct (Hw0 l' (CheckWinner (set_cell b e m)) Hin').
Qed.

(** ** AIMove: priority of the tiers *)

Lemma counter_engine_spec : RandomEngineSpec Z.
Proof.
  intros a b g Hab. simpl. unfold counter_draw. simpl.
  pose proof (Z.mod_pos_bound g (b - a + 1)). lia.
Qed.

Lemma has_threat_first (target : Z) (b : Board) :
  target <> 0 ->
  has_threat target b -> exists l e, In l WINS /\ first_threat target b l e.
Proof.
  intros Ht Hth.
  destruct (FindImmediateMove target b) as [e |] eqn:Hf.
  - apply FindImmediateMove_first_threat in Hf as [l Hl]; [|done].
    exists l, e. split; [|done].
    destruct Hl as (pre & post & -> & _). apply in_or_app. right. by left.
  - apply FindImmediateMove_None in Hf; done.
Qed.

Lemma first_threat_completes (target : Z) (b : Board) (l : Line) (e : nat) :
  first_threat target b l e -> In l WINS /\ completes target b l e.
Proof.
  intros (pre & post & -> & _ & Hc). split; [|done].
  apply in_or_app. right. by left.
Qed.

Lemma AIMove_entry_facts {Rng} (s : State Rng) :
  AIMove_entry s ->
  board_ok (board s) /\ gameOver s = false /\
  CheckWinner (board s) = 0 /\ ~ full (board s).
Proof.
  intros [Hout Hrun]. split; [by destruct Hout|]. split; [done|].
  pose proof (proj2 Hout) as [Hw Hover]. rewrite Hrun in Hover.
  symmetry in Hover. apply orb_false_iff in Hover as [Hw0 Hd].
  apply negb_false_iff, Z.eqb_eq in Hw0.
  assert (CheckWinner (board s) = 0) as Hcw by congruence.
  split; [done|]. intros Hfull.
  assert (CheckDraw (board s) = true) as Hd'.
  { apply CheckDraw_spec; [by destruct Hout | done]. }
  congruence.
Qed.

(** The call the click handler makes to [AIMove] — with the AI enabled,
    after a mark that neither wins nor fills the board — is on such a
    state. *)
Lemma handler_calls_AIMove_on_entry {Rng} `{RandomEngine Rng} (idx : nat)
  (s : State Rng) :
  board_ok (board s) ->
  aiEnabled s = true ->
  CheckWinner (set_cell (board s) idx (currentPlayer s)) = 0 ->
  CheckDraw (set_cell (board s) idx (currentPlayer s)) = false ->
  AIMove_entry
    (mkState (set_cell (board s) idx (currentPlayer s)) 2 false 0 true
             (rng s)) /\
  PlaceMark idx s
  = AIMove (mkState (set_cell (board s) idx (currentPlayer s)) 2 false 0 true
                    (rng s)).
Proof.
  intros Hok Hai Hw Hd. split.
  - split; [|done]. split; [by apply board_ok_set_cell|]. simpl.
    by rewrite Hw, Hd.
  - unfold PlaceMark. by rewrite Hw, Hd, Hai.
Qed.

(** C2.  On every state [AIMove] is entered in, the priority order is
    strict.  If some win line holds two O and one Empty cell, the O goes
    into such an Empty cell, whether or not X threatens elsewhere, and O
    has won: [winner == 2], game over.  If no line is such but some win
    line holds two X and one Empty cell, the O goes into such a cell.
    Otherwise the O goes into one of the Empty cells, a member of the list
    of all of them.  In every case exactly one O is placed, on a cell that
    was Empty, and no other cell changes. *)
Theorem C2_AIMove_priority_on_entry {Rng} `{RandomEngineSpec Rng}
  (s : State Rng) :
  AIMove_entry s ->
  (has_threat 2 (board s) ->
   exists l e,
     In l WINS /\ completes 2 (board s) l e /\
     board (AIMove s) = set_cell (board s) e 2 /\
     winner (AIMove s) = 2 /\ gameOver (AIMove s) = true) /\
  (~ has_threat 2 (board s) -> has_threat 1 (board s) ->
   exists l e,
     In l WINS /\ completes 1 (board s) l e /\
     board (AIMove s) = set_cell (board s) e 2) /\
  (~ has_threat 2 (board s) -> ~ has_threat 1 (board s) ->
   exists e,
     In e (empty_cells (board s)) /\
     (e < 9)%nat /\ cell (board s) e = 0 /\
     board (AIMove s) = set_cell (board s) e 2) /\
  (exists e,
     (e < 9)%nat /\ cell (board s) e = 0 /\
     board (AIMove s) = set_cell (board s) e 2 /\
     cell (board (AIMove s)) e = 2 /\
     (forall j, j <> e -> cell (board (AIMove s)) j = cell (board s) j)).
Proof.
  intros Hentry.
  destruct (AIMove_entry_facts s Hentry) as (Hok & Hrun & Hw0 & Hnf).
  rewrite (AIMove_running s Hrun). simpl.
  split; [|split; [|split]].
  - intros Hth.
    destruct (has_threat_first 2 _ ltac:(lia) Hth) as (l & e & Hin & Hft).
    pose proof (first_threat_completes _ _ _ _ Hft) as [_ Hc].
    assert (FindImmediateMove 2 (board s) = Some e) as Hf
      by (apply FindImmediateMove_first_threat; [lia | by exists l]).
    rewrite (AIPlace_win _ (rng s) _ Hf). simpl.
    exists l, e. split; [done|]. split; [done|]. split; [done|].
    assert (CheckWinner (set_cell (board s) e 2) = 2) as Hw2.
    { apply (CheckWinner_after_completion _ l); try done.
      apply FindImmediateMove_cell in Hf as [_ Hlt]. rewrite Hok. lia. }
    by rewrite Hw2.
  - intros Hno Hth.
    destruct (has_threat_first 1 _ ltac:(lia) Hth) as (l & e & Hin & Hft).
    pose proof (first_threat_completes _ _ _ _ Hft) as [_ Hc].
    assert (FindImmediateMove 1 (board s) = Some e) as Hf
      by (apply FindImmediateMove_first_threat; [lia | by exists l]).
    apply FindImmediateMove_None in Hno; [|lia].
    rewrite (AIPlace_block _ (rng s) _ Hno Hf). simpl.
    by exists l, e.
  - intros Hno2 Hno1.
    apply FindImmediateMove_None in Hno2; [|lia].
    apply FindImmediateMove_None in Hno1; [|lia].
    destruct (AIPlace_random _ (rng s) Hno2 Hno1 Hnf) as (e & g' & Hin & ->).
    pose proof (proj1 (empty_cells_In _ _) Hin) as [Hlt Hz].
    simpl. by exists e.
  - destruct (AIPlace_places _ (rng s) Hnf) as (e & g' & Hlt & Hz & ->).
    simpl. exists e. repeat split; try done.
    + apply cell_set_eq. rewrite Hok. lia.
    + intros j Hj. by apply cell_set_ne.
Qed.

(** ** The outcome fields follow the board *)

Lemma outcome_ok_spec {Rng} (s : State Rng) :
  outcome_ok s ->
  (gameOver s = true <-> winner s <> 0 \/ full (board s)) /\
  (winner s <> 0 ->
   exists l, In l WINS /\ uniform_line (board s) l (winner s)).
Proof.
  intros (Hok & Hw & Hover). split.
  - rewrite Hover, orb_true_iff, negb_true_iff, Z.eqb_neq.
    rewrite (CheckDraw_spec _ Hok), <- Hw.
    destruct (decide (winner s = 0)); tauto.
  - rewrite Hw. apply CheckWinner_from_hit.
Qed.

Lemma outcome_ok_evaluated {Rng} (bd : Board) (cp : Z) (ai : bool)
  (g : Rng) :
  board_ok bd ->
  outcome_ok (mkState bd cp (negb (CheckWinner bd =? 0) || CheckDraw bd)
                      (CheckWinner bd) ai g).
Proof. intros Hok. by repeat split. Qed.

Lemma outcome_ok_AIMove {Rng} `{RandomEngine Rng} (s : State Rng) :
  outcome_ok s -> outcome_ok (AIMove s).
Proof.
  intros Hs. destruct (gameOver s) eqn:Hover.
  - by rewrite AIMove_over.
  - rewrite AIMove_running by done. cbv zeta.
    apply outcome_ok_evaluated. unfold board_ok.
    rewrite AIPlace_length. by destruct Hs.
Qed.

Lemma outcome_ok_PlaceMark {Rng} `{RandomEngine Rng} (idx : nat)
  (s : State Rng) :
  board_ok (board s) -> outcome_ok (PlaceMark idx s).
Proof.
  intros Hok. unfold PlaceMark.
  pose proof (board_ok_set_cell _ idx (currentPlayer s) Hok) as Hok'.
  destruct (negb (negb (CheckWinner (set_cell (board s) idx (currentPlayer s))
                        =? 0)
                  || CheckDraw (set_cell (board s) idx (currentPlayer s))))
    eqn:Hgo.
  - destruct (aiEnabled s).
    + apply outcome_ok_AIMove. by apply outcome_ok_evaluated.
    + by apply outcome_ok_evaluated.
  - by apply outcome_ok_evaluated.
Qed.

Lemma outcome_ok_DrawCell {Rng} `{RandomEngine Rng} (pressed : nat -> bool)
  (idx : nat) (s : State Rng) :
  outcome_ok s -> outcome_ok (DrawCell pressed idx s).
Proof.
  intros Hs. unfold DrawCell.
  destruct (Button _ _); [|done].
  apply outcome_ok_PlaceMark. by destruct Hs.
Qed.

(** The two loops of [DrawBoardUI] visit the cells 0 to 8 in order. *)
Lemma DrawBoardUI_unfold {Rng} `{RandomEngine Rng} (p : nat -> bool)
  (s : State Rng) :
  DrawBoardUI p s =
  DrawCell p 8 (DrawCell p 7 (DrawCell p 6 (DrawCell p 5 (DrawCell p 4
    (DrawCell p 3 (DrawCell p 2 (DrawCell p 1 (DrawCell p 0 s)))))))).
Proof. reflexivity. Qed.

Lemma outcome_ok_DrawBoardUI {Rng} `{RandomEngine Rng} (p : nat -> bool)
  (s : State Rng) :
  outcome_ok s -> outcome_ok (DrawBoardUI p s).
Proof.
  intros Hs. rewrite DrawBoardUI_unfold.
  by repeat apply outcome_ok_DrawCell.
Qed.

Lemma outcome_ok_ResetGame {Rng} (s : State Rng) :
  board_ok (board s) -> outcome_ok (ResetGame s).
Proof.
  unfold board_ok, ResetGame. intros ->. by repeat split.
Qed.

Lemma outcome_ok_RenderGame {Rng} `{RandomEngine Rng} (inp : Input)
  (s : State Rng) :
  outcome_ok s -> outcome_ok (RenderGame inp s).
Proof.
  intros Hs. unfold RenderGame. apply outcome_ok_DrawBoardUI.
  assert (outcome_ok (if resetPressed inp then ResetGame s else s)) as Hs1.
  { destruct (resetPressed inp); [|done].
    apply outcome_ok_ResetGame. by destruct Hs. }
  destruct Hs1 as (Hok & Hw & Hover). by repeat split.
Qed.

Lemma outcome_ok_frames {Rng} `{RandomEngine Rng} (frames : list Input)
  (s : State Rng) :
  outcome_ok s ->
  outcome_ok (foldl (fun s inp => RenderGame inp s) s frames).
Proof.
  revert s. induction frames as [| inp frames IH]; intros s Hs; [done|].
  simpl. apply IH. by apply outcome_ok_RenderGame.
Qed.

Lemma outcome_ok_GameStartUp {Rng} `{RandomEngine Rng} (t : Z) :
  outcome_ok (GameStartUp t static_state).
Proof. unfold GameStartUp. by apply outcome_ok_ResetGame. Qed.

(** C3.  In every state the program reaches — [GameStartUp] followed by any
    number of frames, each of which may reset the game, toggle the AI and
    apply a move with the AI's embedded answer — [gameOver] is true exactly
    when [winner] is not 0 (None) or no cell of the board is Empty, and a
    non-zero [winner] is the mark held by all three cells of some win
    line. *)
Theorem C3_reachable_outcome {Rng} `{RandomEngine Rng} (t : Z)
  (frames : list Input) :
  (gameOver (run t frames) = true <->
   winner (run t frames) <> 0 \/ full (board (run t frames))) /\
  (winner (run t frames) <> 0 ->
   exists l,
     In l WINS /\ uniform_line (board (run t frames)) l (winner (run t frames))).
Proof.
  apply outcome_ok_spec. unfold run.
  apply outcome_ok_frames, outcome_ok_GameStartUp.
Qed.

(** ** Clicks on the board *)

Lemma Button_unpressed (d : bool) : Button d false = false.
Proof. reflexivity. Qed.

Lemma Button_disabled (p : bool) : Button true p = false.
Proof. unfold Button. apply andb_false_r. Qed.

Lemma DrawCell_other {Rng} `{RandomEngine Rng} (idx j : nat)
  (s : State Rng) :
  j <> idx -> DrawCell (click idx) j s = s.
Proof.
  intros Hne. unfold DrawCell, click.
  apply Nat.eqb_neq in Hne. by rewrite Hne, Button_unpressed.
Qed.

Lemma DrawCell_disabled {Rng} `{RandomEngine Rng} (pressed : nat -> bool)
  (idx : nat) (s : State Rng) :
  disabled s idx = true -> DrawCell pressed idx s = s.
Proof. unfold DrawCell. intros ->. by rewrite Button_disabled. Qed.

Lemma DrawCell_enabled {Rng} `{RandomEngine Rng} (idx : nat)
  (s : State Rng) :
  disabled s idx = false -> DrawCell (click idx) idx s = PlaceMark idx s.
Proof.
  unfold DrawCell, click. intros ->. by rewrite Nat.eqb_refl.
Qed.

Ltac skip_cells k :=
  try rewrite (DrawCell_other k 0%nat) by lia;
  try rewrite (DrawCell_other k 1%nat) by lia;
  try rewrite (DrawCell_other k 2%nat) by lia;
  try rewrite (DrawCell_other k 3%nat) by lia;
  try rewrite (DrawCell_other k 4%nat) by lia;
  try rewrite (DrawCell_other k 5%nat) by lia;
  try rewrite (DrawCell_other k 6%nat) by lia;
  try rewrite (DrawCell_other k 7%nat) by lia;
  try rewrite (DrawCell_other k 8%nat) by lia.

(** A frame with a single click runs the handler of that one cell. *)
Lemma DrawBoardUI_click {Rng} `{RandomEngine Rng} (idx : nat)
  (s : State Rng) :
  DrawBoardUI (click idx) s =
  if (idx <? 9)%nat then DrawCell (click idx) idx s else s.
Proof.
  rewrite DrawBoardUI_unfold.
  do 9 (destruct idx as [| idx];
        [match goal with |- context [click ?k] => skip_cells k end;
         reflexivity|]).
  match goal with |- context [click ?k] => skip_cells k end.
  reflexivity.
Qed.

Lemma disabled_illegal {Rng} (s : State Rng) (idx : nat) :
  gameOver s = true \/ cell (board s) idx <> 0 -> disabled s idx = true.
Proof.
  unfold disabled. intros [-> | Hc]; [done|].
  apply Z.eqb_neq in Hc. rewrite Hc. simpl. by rewrite orb_true_r.
Qed.

Lemma disabled_false {Rng} (s : State Rng) (idx : nat) :
  disabled s idx = false ->
  gameOver s = false /\ cell (board s) idx = 0 /\
  (aiEnabled s = true -> currentPlayer s = 1).
Proof.
  unfold disabled. rewrite !orb_false_iff, negb_false_iff, Z.eqb_eq.
  intros [[Hover Hc] Hturn]. repeat split; [done | done |].
  intros Hai. rewrite Hai in Hturn. simpl in Hturn.
  apply negb_false_iff in Hturn. by apply Z.eqb_eq.
Qed.

(** ** Counting marks *)

Lemma count_marks_set_cell (b : Board) (j : nat) (v : Z) :
  (j < length b)%nat -> cell b j = 0 -> v <> 0 ->
  count_marks (set_cell b j v) = S (count_marks b).
Proof.
  unfold count_marks, set_cell.
  revert j. induction b as [| x b IH]; intros j Hj Hz Hv; simpl in Hj.
  - lia.
  - destruct j as [| j]; simpl.
    + rewrite cell_cons_0 in Hz. subst x. simpl.
      by destruct (Z.eqb_spec v 0).
    + rewrite cell_cons_S in Hz.
      destruct (negb (x =? 0)); simpl; rewrite IH; try done; lia.
Qed.

Lemma CheckDraw_false_not_full (b : Board) :
  board_ok b -> CheckWinner b = 0 -> CheckDraw b = false -> ~ full b.
Proof.
  intros Hok Hw Hd Hfull.
  assert (CheckDraw b = true) by (by apply CheckDraw_spec). congruence.
Qed.

(** C6.  With the AI enabled, a click on an enabled cell (game running,
    cell Empty, X to move) whose X mark neither wins nor fills the board
    makes, within the same call, exactly one further placement: an O on a
    cell that was Empty.  The board afterwards is the old board with the X
    and that O, two marks more than before, and if the game is not over
    afterwards it is X's turn again. *)
Theorem C6_click_then_AI_reply {Rng} `{RandomEngineSpec Rng}
  (s : State Rng) (idx : nat) :
  board_ok (board s) ->
  (idx < 9)%nat ->
  aiEnabled s = true ->
  disabled s idx = false ->
  CheckWinner (set_cell (board s) idx 1) = 0 ->
  CheckDraw (set_cell (board s) idx 1) = false ->
  currentPlayer s = 1 /\
  exists e,
    (e < 9)%nat /\ e <> idx /\ cell (board s) e = 0 /\
    board (DrawBoardUI (click idx) s)
      = set_cell (set_cell (board s) idx 1) e 2 /\
    count_marks (board (DrawBoardUI (click idx) s))
      = (count_marks (board s) + 2)%nat /\
    (gameOver (DrawBoardUI (click idx) s) = false ->
     currentPlayer (DrawBoardUI (click idx) s) = 1).
Proof.
  intros Hok Hidx Hai Hen Hw Hd.
  destruct (disabled_false s idx Hen) as (Hrun & Hcell & Hturn).
  specialize (Hturn Hai). split; [done|].
  rewrite DrawBoardUI_click.
  apply Nat.ltb_lt in Hidx as Hidxb. rewrite Hidxb.
  rewrite (DrawCell_enabled idx s Hen).
  unfold PlaceMark. rewrite Hturn, Hw, Hd, Hai. simpl.
  rewrite AIMove_running by done. simpl.
  pose proof (board_ok_set_cell _ idx 1 Hok) as Hok1.
  pose proof (CheckDraw_false_not_full _ Hok1 Hw Hd) as Hnf.
  destruct (AIPlace_places _ (rng s) Hnf) as (e & g' & He & Hz & ->).
  simpl.
  assert (e <> idx) as Hne.
  { intros ->. rewrite cell_set_eq in Hz; [done | rewrite Hok; lia]. }
  exists e. split; [done|]. split; [done|].
  split; [by rewrite cell_set_ne in Hz|]. split; [done|]. split.
  - rewrite count_marks_set_cell; [| rewrite Hok1; lia | done | done].
    rewrite count_marks_set_cell; [lia | rewrite Hok; lia | done | done].
  - intros ->. reflexivity.
Qed.

(** ** The AI toggle *)

Lemma aiEnabled_AIMove {Rng} `{RandomEngine Rng} (s : State Rng) :
  aiEnabled (AIMove s) = aiEnabled s.
Proof.
  unfold AIMove. destruct (gameOver s); [done|].
  by destruct (AIPlace (board s) (rng s)).
Qed.

Lemma aiEnabled_DrawCell {Rng} `{RandomEngine Rng} (p : nat -> bool)
  (idx : nat) (s : State Rng) :
  aiEnabled (DrawCell p idx s) = aiEnabled s.
Proof.
  unfold DrawCell. destruct (Button _ _); [|done].
  unfold PlaceMark.
  destruct (negb _); [|done].
  destruct (aiEnabled s) eqn:Hai; [|done].
  by rewrite aiEnabled_AIMove.
Qed.

Lemma aiEnabled_DrawBoardUI {Rng} `{RandomEngine Rng} (p : nat -> bool)
  (s : State Rng) :
  aiEnabled (DrawBoardUI p s) = aiEnabled s.
Proof.
  rewrite DrawBoardUI_unfold. by rewrite !aiEnabled_DrawCell.
Qed.

(** C10.  [ResetGame] does not touch [aiEnabled]: its value after the reset
    is its value before, be it true or false; the same holds for a whole
    frame in which Reset is pressed and the checkbox is not. *)
Theorem C10_reset_keeps_aiEnabled {Rng} `{RandomEngine Rng}
  (s : State Rng) :
  aiEnabled (ResetGame s) = aiEnabled s /\
  (forall inp,
      resetPressed inp = true -> aiToggled inp = false ->
      aiEnabled (RenderGame inp s) = aiEnabled s).
Proof.
  split; [reflexivity|].
  intros inp Hreset Htoggle. unfold RenderGame.
  rewrite aiEnabled_DrawBoardUI. simpl. by rewrite Hreset, Htoggle.
Qed.

(** ** The model run on concrete positions *)

Ltac each_cell i :=
  do 9 (destruct i as [| i]; [vm_compute; congruence|]).

Example x_won_state_reached : run 7 x_won_frames = x_won_state.
Proof. vm_compute. reflexivity. Qed.

Example top_row_scenario :
  let frames := map (fun i => mkInput false false (click i))
                    [0; 4; 1; 5; 2]%nat in
  let s := foldl (fun s inp => RenderGame inp s)
                 (mkState (replicate 9 0) 1 false 0 false 7) frames in
  winner s = 1 /\ gameOver s = true.
Proof. vm_compute. split; reflexivity. Qed.

(** The disabled flag is the only gate: the handler body, run on an occupied
    cell of a finished game, would put the current player's mark there. *)
Example PlaceMark_is_unguarded :
  cell (board x_won_state) 0 = 2 /\
  cell (board (PlaceMark 0 x_won_state)) 0 = 1.
Proof. split; reflexivity. Qed.

Lemma C2_witness :
  exists l e,
    In l WINS /\ completes 2 (board both_threat_state) l e /\
    board (AIMove both_threat_state) = set_cell (board both_threat_state) e 2 /\
    winner (AIMove both_threat_state) = 2 /\
    gameOver (AIMove both_threat_state) = true.
Proof.
  apply (proj1 (@C2_AIMove_priority_on_entry Z counter_engine
                  counter_engine_spec both_threat_state
                  ltac:(repeat split; reflexivity))).
  exists (3, 4, 5)%nat, 5%nat. split.
  - right. left. reflexivity.
  - right. right. repeat split; reflexivity.
Defined.

Lemma C5_witness : CheckDraw drawn_board = true /\ CheckWinner drawn_board = 0.
Proof.
  apply (proj2 (C5_CheckDraw_spec drawn_board eq_refl)).
  - intros i Hi. each_cell i. lia.
  - intros (l & m & Hin & Hu).
    exact (proj1 (CheckWinner_from_none drawn_board WINS) eq_refl l m Hin Hu).
Defined.

Lemma C6_witness :
  currentPlayer fresh_state = 1 /\
  exists e,
    (e < 9)%nat /\ e <> 0%nat /\ cell (board fresh_state) e = 0 /\
    board (DrawBoardUI (click 0) fresh_state)
      = set_cell (set_cell (board fresh_state) 0 1) e 2 /\
    count_marks (board (DrawBoardUI (click 0) fresh_state))
      = (count_marks (board fresh_state) + 2)%nat /\
    (gameOver (DrawBoardUI (click 0) fresh_state) = false ->
     currentPlayer (DrawBoardUI (click 0) fresh_state) = 1).
Proof.
  apply (@C6_click_then_AI_reply Z counter_engine counter_engine_spec
           fresh_state 0); [reflexivity | lia | reflexivity ..].
Defined.

Lemma C7_witness :
  board (ResetGame x_won_state) = replicate 9 0 /\
  (forall i, (i < 9)%nat -> cell (board (ResetGame x_won_state)) i = 0) /\
  currentPlayer (ResetGame x_won_state) = 1 /\
  gameOver (ResetGame x_won_state) = false /\
  winner (ResetGame x_won_state) = 0.
Proof.
  apply (proj1 (C7_ResetGame_initial x_won_state eq_refl)).
Defined.

Lemma C9_witness :
  board (AIMove full_running_state) = board full_running_state.
Proof.
  apply (proj1 (C9_AIMove_full_board full_running_state
                  ltac:(intros i Hi; each_cell i; lia))).
Defined.

(** ** Placing a mark on an Empty cell *)

Lemma count_of_set_cell (b : Board) (e : nat) (p m : Z) :
  (e < length b)%nat -> cell b e = 0 -> m <> 0 ->
  count_of m (set_cell b e p)
  = (count_of m b + (if (p =? m)%Z then 1 else 0))%nat.
Proof.
  unfold count_of, set_cell.
  revert e. induction b as [| x b IH]; intros e He Hz Hm; simpl in He.
  - lia.
  - destruct e as [| e]; simpl.
    + rewrite cell_cons_0 in Hz. subst x.
      destruct (Z.eqb_spec 0 m); [congruence|].
      destruct (p =? m); simpl; lia.
    + rewrite cell_cons_S in Hz.
      destruct (x =? m); simpl; rewrite IH; try done; lia.
Qed.

Lemma valid_cell_lookup (b : Board) (i : nat) :
  Forall valid_cell b -> valid_cell (cell b i).
Proof.
  intros Hall. unfold cell. destruct (b !! i) as [v |] eqn:E; simpl.
  - by eapply Forall_lookup_1.
  - by left.
Qed.

Lemma valid_set_cell (b : Board) (e : nat) (p : Z) :
  Forall valid_cell b -> valid_cell p -> Forall valid_cell (set_cell b e p).
Proof. intros Hall Hp. by apply Forall_insert. Qed.

(** On a board without a uniform line, a new mark can only make its own
    lines uniform. *)
Lemma place_winner (b : Board) (e : nat) (p : Z) (l : Line) (m : Z) :
  CheckWinner b = 0 -> (e < length b)%nat ->
  In l WINS -> uniform_line (set_cell b e p) l m ->
  m = p /\ CheckWinner (set_cell b e p) = p.
Proof.
  intros Hw0 He Hin Hu.
  unfold CheckWinner in Hw0. rewrite CheckWinner_from_none in Hw0.
  assert (forall l' m', In l' WINS -> uniform_line (set_cell b e p) l' m' ->
                        m' = p) as Honly.
  { intros l' m' Hin' Hu'.
    destruct (decide (m' = p)) as [| Hne]; [done|].
    apply uniform_line_before in Hu'; [|done|done].
    by destruct (Hw0 l' m' Hin'). }
  split; [by apply (Honly l)|].
  assert (CheckWinner (set_cell b e p) <> 0) as Hnz.
  { intros Hz. unfold CheckWinner in Hz.
    rewrite CheckWinner_from_none in Hz. by apply (Hz l m). }
  destruct (CheckWinner_from_hit _ _ Hnz) as (l' & Hin' & Hu').
  by apply (Honly l').
Qed.

Lemma place_winner_cases (b : Board) (e : nat) (p : Z) :
  CheckWinner b = 0 -> (e < length b)%nat ->
  CheckWinner (set_cell b e p) = 0 \/ CheckWinner (set_cell b e p) = p.
Proof.
  intros Hw0 He.
  destruct (decide (CheckWinner (set_cell b e p) = 0)) as [| Hnz];
    [by left | right].
  destruct (CheckWinner_from_hit _ _ Hnz) as (l & Hin & Hu).
  by destruct (place_winner b e p l _ Hw0 He Hin Hu).
Qed.

Lemma running_facts {Rng} (s : State Rng) :
  outcome_ok s -> gameOver s = false ->
  winner s = 0 /\ CheckWinner (board s) = 0 /\ CheckDraw (board s) = false
  /\ ~ full (board s).
Proof.
  intros (Hok & Hw & Hover) Hrun. rewrite Hrun in Hover.
  symmetry in Hover. apply orb_false_iff in Hover as [Hw0 Hd].
  apply negb_false_iff, Z.eqb_eq in Hw0.
  assert (CheckWinner (board s) = 0) as Hcw by congruence.
  repeat split; try done. by apply CheckDraw_false_not_full.
Qed.

(** The state obtained by placing [p] on an Empty cell of a running,
    consistent position and evaluating the outcome. *)
Lemma game_inv_after_place {Rng} (b : Board) (e : nat) (p cp' : Z)
  (ai : bool) (g : Rng) :
  board_ok b -> Forall valid_cell b -> CheckWinner b = 0 ->
  (e < 9)%nat -> cell b e = 0 ->
  (p = 1 /\ count_of 1 b = count_of 2 b \/
   p = 2 /\ count_of 1 b = S (count_of 2 b)) ->
  (cp' = 1 \/ cp' = 2) ->
  (negb (CheckWinner (set_cell b e p) =? 0) || CheckDraw (set_cell b e p)
     = false ->
   cp' = if p =? 1 then 2 else 1) ->
  game_inv (mkState (set_cell b e p) cp'
                    (negb (CheckWinner (set_cell b e p) =? 0)
                     || CheckDraw (set_cell b e p))
                    (CheckWinner (set_cell b e p)) ai g).
Proof.
  intros Hok Hval Hw0 He Hz Hp Hcp Hturn.
  assert (e < length b)%nat as Hlen by (rewrite Hok; lia).
  assert (p <> 0) as Hpnz by (destruct Hp as [[-> _] | [-> _]]; lia).
  split; [|split; [|split; [|split]]].
  - apply outcome_ok_evaluated. by apply board_ok_set_cell.
  - simpl. apply valid_set_cell; [done|].
    destruct Hp as [[-> _] | [-> _]]; [right; by left | right; by right].
  - done.
  - intros l m Hin Hu. simpl in *.
    destruct (place_winner b e p l m Hw0 Hlen Hin Hu) as [-> ->]. done.
  - unfold balanced. simpl.
    rewrite !count_of_set_cell by (done || lia).
    destruct (negb (CheckWinner (set_cell b e p) =? 0)
              || CheckDraw (set_cell b e p)) eqn:Hover.
    + destruct Hp as [[-> Hc] | [-> Hc]]; simpl; [right | left]; lia.
    + specialize (Hturn eq_refl).
      destruct Hp as [[-> Hc] | [-> Hc]]; simpl in *;
        [right | left]; split; try done; lia.
Qed.

(** ** The invariant of the game loop *)

Lemma game_inv_AIMove {Rng} `{RandomEngineSpec Rng} (s : State Rng) :
  game_inv s -> currentPlayer s = 2 -> game_inv (AIMove s).
Proof.
  intros Hinv Hcp. destruct (gameOver s) eqn:Hrun.
  { by rewrite AIMove_over. }
  destruct Hinv as (Hout & Hval & _ & _ & Hbal).
  destruct (running_facts s Hout Hrun) as (_ & Hw0 & _ & Hnf).
  destruct (AIPlace_places (board s) (rng s) Hnf) as (e & g' & He & Hz & Heq).
  rewrite AIMove_running by done. cbv zeta. rewrite Heq. simpl fst. simpl snd.
  unfold balanced in Hbal. rewrite Hrun in Hbal.
  apply game_inv_after_place; try done.
  - by destruct Hout.
  - right. split; [done|]. destruct Hbal as [[Hc _] | [_ Hb]]; [lia | done].
  - destruct (negb _); [by left | by right].
  - by intros ->.
Qed.

Lemma game_inv_PlaceMark {Rng} `{RandomEngineSpec Rng} (idx : nat)
  (s : State Rng) :
  game_inv s -> (idx < 9)%nat -> disabled s idx = false ->
  game_inv (PlaceMark idx s).
Proof.
  intros Hinv Hidx Hen.
  destruct Hinv as (Hout & Hval & Hcp & _ & Hbal).
  destruct (disabled_false s idx Hen) as (Hrun & Hz & Hturn).
  destruct (running_facts s Hout Hrun) as (_ & Hw0 & _ & _).
  unfold balanced in Hbal. rewrite Hrun in Hbal.
  assert (currentPlayer s = 1 /\ count_of 1 (board s) = count_of 2 (board s)
          \/ currentPlayer s = 2
             /\ count_of 1 (board s) = S (count_of 2 (board s))) as Hp
    by done.
  pose proof (proj1 Hout) as Hok.
  unfold PlaceMark.
  destruct (negb (negb (CheckWinner (set_cell (board s) idx (currentPlayer s))
                        =? 0)
                  || CheckDraw (set_cell (board s) idx (currentPlayer s))))
    eqn:Hgo.
  - apply negb_true_iff in Hgo.
    destruct (aiEnabled s) eqn:Hai.
    + apply game_inv_AIMove; [|done].
      apply game_inv_after_place; try done; [by right|].
      intros _. rewrite (Hturn eq_refl). reflexivity.
    + apply game_inv_after_place; try done.
      destruct (currentPlayer s =? 1); [by right | by left].
  - apply negb_false_iff in Hgo.
    apply game_inv_after_place; try done.
    intros Hno. congruence.
Qed.

Lemma game_inv_DrawCell {Rng} `{RandomEngineSpec Rng} (p : nat -> bool)
  (idx : nat) (s : State Rng) :
  game_inv s -> (idx < 9)%nat -> game_inv (DrawCell p idx s).
Proof.
  intros Hinv Hidx. unfold DrawCell, Button.
  destruct (p idx); [|done].
  destruct (disabled s idx) eqn:Hdis; [done|].
  by apply game_inv_PlaceMark.
Qed.

Lemma game_inv_DrawBoardUI {Rng} `{RandomEngineSpec Rng} (p : nat -> bool)
  (s : State Rng) :
  game_inv s -> game_inv (DrawBoardUI p s).
Proof.
  intros Hinv. rewrite DrawBoardUI_unfold.
  repeat (apply game_inv_DrawCell; [|lia]). done.
Qed.

Lemma game_inv_ResetGame {Rng} (s : State Rng) :
  board_ok (board s) -> game_inv (ResetGame s).
Proof.
  intros Hok. split; [by apply outcome_ok_ResetGame|].
  unfold board_ok in Hok. unfold ResetGame, winner_unique, balanced.
  cbn [board winner currentPlayer gameOver]. rewrite Hok.
  split; [|split; [|split]].
  - apply Forall_replicate. by left.
  - by left.
  - intros [[i j] k] m Hin (Hm & Hi & _).
    rewrite cell_replicate_0 in Hi. congruence.
  - left. by split.
Qed.

Lemma RenderGame_controls {Rng} `{RandomEngine Rng} (inp : Input)
  (s : State Rng) :
  RenderGame inp s = DrawBoardUI (cellPressed inp) (RenderControls inp s).
Proof. reflexivity. Qed.

Lemma game_inv_RenderControls {Rng} (inp : Input) (s : State Rng) :
  game_inv s -> game_inv (RenderControls inp s).
Proof.
  intros Hinv. unfold RenderControls.
  assert (game_inv (if resetPressed inp then ResetGame s else s)) as Hs1.
  { destruct (resetPressed inp); [|done].
    apply game_inv_ResetGame. by destruct Hinv as ((Hok & _) & _). }
  destruct Hs1 as ((Hok & Hw & Hover) & Hval & Hcp & Huniq & Hbal).
  by repeat split.
Qed.

Lemma game_inv_RenderGame {Rng} `{RandomEngineSpec Rng} (inp : Input)
  (s : State Rng) :
  game_inv s -> game_inv (RenderGame inp s).
Proof.
  intros Hinv. rewrite RenderGame_controls.
  by apply game_inv_DrawBoardUI, game_inv_RenderControls.
Qed.

Lemma game_inv_run {Rng} `{RandomEngineSpec Rng} (t : Z)
  (frames : list Input) :
  game_inv (run t frames).
Proof.
  unfold run.
  assert (game_inv (GameStartUp t static_state)) as Hinit
    by (by apply game_inv_ResetGame).
  revert Hinit. generalize (GameStartUp t static_state).
  induction frames as [| inp frames IH]; intros s Hs; [done|].
  simpl. apply IH. by apply game_inv_RenderGame.
Qed.

(** ** Marks stay where they are *)

Lemma AIPlace_keeps {Rng} `{RandomEngineSpec Rng} (b : Board) (g : Rng)
  (i : nat) :
  cell b i <> 0 -> cell (fst (AIPlace b g)) i = cell b i.
Proof.
  intros Hi. destruct (find_empty_below b 9) as [Hfull | Hex].
  - by rewrite AIPlace_full.
  - apply not_full_empty in Hex.
    destruct (AIPlace_places b g Hex) as (e & g' & He & Hz & ->).
    simpl. apply cell_set_ne. congruence.
Qed.

Lemma AIMove_keeps {Rng} `{RandomEngineSpec Rng} (s : State Rng) (i : nat) :
  cell (board s) i <> 0 -> cell (board (AIMove s)) i = cell (board s) i.
Proof.
  intros Hi. destruct (gameOver s) eqn:Hrun.
  - by rewrite AIMove_over.
  - rewrite AIMove_running by done. simpl. by apply AIPlace_keeps.
Qed.

Lemma PlaceMark_keeps {Rng} `{RandomEngineSpec Rng} (idx : nat)
  (s : State Rng) (i : nat) :
  disabled s idx = false -> cell (board s) i <> 0 ->
  cell (board (PlaceMark idx s)) i = cell (board s) i.
Proof.
  intros Hen Hi. destruct (disabled_false s idx Hen) as (_ & Hz & _).
  assert (cell (set_cell (board s) idx (currentPlayer s)) i
          = cell (board s) i) as Hkeep
    by (apply cell_set_ne; congruence).
  unfold PlaceMark. destruct (negb _); [|done].
  destruct (aiEnabled s); [|done].
  rewrite AIMove_keeps; simpl; [done | congruence].
Qed.

Lemma DrawCell_keeps {Rng} `{RandomEngineSpec Rng} (p : nat -> bool)
  (idx : nat) (s : State Rng) (i : nat) (v : Z) :
  v <> 0 -> cell (board s) i = v -> cell (board (DrawCell p idx s)) i = v.
Proof.
  intros Hv Hi. unfold DrawCell, Button.
  destruct (p idx); [|done].
  destruct (disabled s idx) eqn:Hdis; [done|]. simpl.
  rewrite PlaceMark_keeps; [done | done | congruence].
Qed.

Lemma DrawBoardUI_keeps {Rng} `{RandomEngineSpec Rng} (p : nat -> bool)
  (s : State Rng) (i : nat) (v : Z) :
  v <> 0 -> cell (board s) i = v -> cell (board (DrawBoardUI p s)) i = v.
Proof.
  intros Hv Hi. rewrite DrawBoardUI_unfold.
  by repeat apply DrawCell_keeps.
Qed.

(** ** Illegal clicks: the gate and the handler behind it *)

(** The handler body places the current player's mark at [idx] whatever the
    cell held and whatever the state of the game. *)
Lemma PlaceMark_places {Rng} `{RandomEngineSpec Rng} (idx : nat)
  (s : State Rng) :
  (idx < length (board s))%nat -> currentPlayer s <> 0 ->
  cell (board (PlaceMark idx s)) idx = currentPlayer s.
Proof.
  intros Hidx Hcp.
  assert (cell (set_cell (board s) idx (currentPlayer s)) idx
          = currentPlayer s) as Hset by (by apply cell_set_eq).
  unfold PlaceMark. destruct (negb _); [|done].
  destruct (aiEnabled s); [|done].
  rewrite AIMove_keeps; simpl; [done | congruence].
Qed.

(** C4 (amended).  A click on a cell while the game is over, or while that
    cell is not Empty, is never applied: the cell's button is disabled and
    the frame leaves the whole state (board, turn, outcome, AI toggle,
    random engine) unchanged.  This gate is the only protection: the
    handler behind the button has no guard, and run on such a cell it puts
    the current player's mark there whatever the cell held. *)
Theorem C4_gate_blocks_illegal_click {Rng} `{RandomEngineSpec Rng}
  (s : State Rng) (idx : nat) :
  gameOver s = true \/ cell (board s) idx <> 0 ->
  (disabled s idx = true /\
   (forall pressed, DrawCell pressed idx s = s) /\
   DrawBoardUI (click idx) s = s) /\
  ((idx < length (board s))%nat -> currentPlayer s <> 0 ->
   cell (board (PlaceMark idx s)) idx = currentPlayer s).
Proof.
  intros Hill. pose proof (disabled_illegal s idx Hill) as Hdis.
  split; [|by apply PlaceMark_places].
  split; [done|]. split.
  - intros pressed. by apply DrawCell_disabled.
  - rewrite DrawBoardUI_click. destruct (idx <? 9)%nat; [|done].
    by apply DrawCell_disabled.
Qed.

(** X1.  Without Reset a mark is never moved, removed or overwritten: over
    any number of frames in which Reset is not pressed, whatever is clicked
    and whatever the AI answers, a cell that holds a mark holds the same
    mark afterwards. *)
Theorem X1_marks_are_permanent {Rng} `{RandomEngineSpec Rng}
  (frames : list Input) (s : State Rng) (i : nat) :
  Forall (fun inp => resetPressed inp = false) frames ->
  cell (board s) i <> 0 ->
  cell (board (foldl (fun s inp => RenderGame inp s) s frames)) i
  = cell (board s) i.
Proof.
  intros Hframes. revert s.
  induction Hframes as [| inp frames Hno _ IH]; intros s Hi; [done|].
  simpl.
  assert (cell (board (RenderGame inp s)) i = cell (board s) i) as Hstep.
  { rewrite RenderGame_controls. apply DrawBoardUI_keeps; [done|].
    unfold RenderControls. by rewrite Hno. }
  rewrite IH; [done | congruence].
Qed.

(** ** What holds in every state the program reaches *)

Lemma CheckWinner_valid (b : Board) :
  Forall valid_cell b -> valid_cell (CheckWinner b).
Proof.
  intros Hval.
  destruct (decide (CheckWinner b = 0)) as [-> | Hnz]; [by left|].
  destruct (CheckWinner_from_hit _ _ Hnz) as ([[i j] k] & _ & Hu).
  fold (CheckWinner b) in Hu. destruct Hu as (_ & <- & _).
  by apply valid_cell_lookup.
Qed.

(** X2.  Every state the program reaches holds only the values the comments
    of the declarations list: each cell is 0, 1 or 2, [currentPlayer] is 1
    or 2, and [winner] is 0, 1 or 2. *)
Theorem X2_reachable_values {Rng} `{RandomEngineSpec Rng} (t : Z)
  (frames : list Input) :
  (forall i, valid_cell (cell (board (run t frames)) i)) /\
  (currentPlayer (run t frames) = 1 \/ currentPlayer (run t frames) = 2) /\
  valid_cell (winner (run t frames)).
Proof.
  destruct (game_inv_run t frames) as ((_ & Hw & _) & Hval & Hcp & _).
  split; [|split].
  - intros i. by apply valid_cell_lookup.
  - done.
  - rewrite Hw. by apply CheckWinner_valid.
Qed.

(** X3.  In every state the program reaches X has as many marks on the
    board as O, or exactly one more; and while the game is running it is
    X's turn exactly when the two counts are equal. *)
Theorem X3_reachable_balance {Rng} `{RandomEngineSpec Rng} (t : Z)
  (frames : list Input) :
  (count_of 1 (board (run t frames)) = count_of 2 (board (run t frames)) \/
   count_of 1 (board (run t frames))
   = S (count_of 2 (board (run t frames)))) /\
  (gameOver (run t frames) = false ->
   (currentPlayer (run t frames) = 1 <->
    count_of 1 (board (run t frames)) = count_of 2 (board (run t frames)))).
Proof.
  destruct (game_inv_run t frames) as (_ & _ & _ & _ & Hbal).
  unfold balanced in Hbal.
  destruct (gameOver (run t frames)).
  - split; [done | discriminate].
  - split.
    + destruct Hbal as [[_ Hc] | [_ Hc]]; [by left | by right].
    + intros _. destruct Hbal as [[Hcp Hc] | [Hcp Hc]]; split; try done; lia.
Qed.

(** X4.  The outcome is never ambiguous: in every state the program
    reaches, every win line whose three cells hold the same mark holds the
    mark recorded in [winner], so two lines are never won by different
    players and the scanning order of [CheckWinner] does not matter. *)
Theorem X4_reachable_single_winner {Rng} `{RandomEngineSpec Rng} (t : Z)
  (frames : list Input) :
  (forall l m,
      In l WINS -> uniform_line (board (run t frames)) l m ->
      m = winner (run t frames)) /\
  (forall l l' m m',
      In l WINS -> In l' WINS ->
      uniform_line (board (run t frames)) l m ->
      uniform_line (board (run t frames)) l' m' -> m = m').
Proof.
  destruct (game_inv_run t frames) as (_ & _ & _ & Huniq & _).
  split; [done|].
  intros l l' m m' Hin Hin' Hu Hu'.
  rewrite (Huniq l m Hin Hu), (Huniq l' m' Hin' Hu'). done.
Qed.

(** ** The board while it is the AI's turn *)

Lemma disabled_ai_turn {Rng} (s : State Rng) (idx : nat) :
  aiEnabled s = true -> currentPlayer s <> 1 -> disabled s idx = true.
Proof.
  intros Hai Hcp. unfold disabled. rewrite Hai.
  apply Z.eqb_neq in Hcp. rewrite Hcp. simpl. apply orb_true_r.
Qed.

Lemma DrawBoardUI_all_disabled {Rng} `{RandomEngine Rng} (p : nat -> bool)
  (s : State Rng) :
  (forall idx, disabled s idx = true) -> DrawBoardUI p s = s.
Proof.
  intros Hdis. rewrite DrawBoardUI_unfold.
  do 9 (rewrite (DrawCell_disabled p _ s) by apply Hdis). done.
Qed.

(** X5.  With the AI enabled and [currentPlayer] other than 1 — the state
    left by switching the AI on while it is O's turn in a two-player game —
    every board button is disabled: no click changes anything, and a frame
    changes the state only through Reset or the checkbox. *)
Theorem X5_board_locked_on_AI_turn {Rng} `{RandomEngine Rng}
  (s : State Rng) :
  aiEnabled s = true ->
  currentPlayer s <> 1 ->
  (forall idx, disabled s idx = true) /\
  (forall pressed, DrawBoardUI pressed s = s) /\
  (forall inp,
      resetPressed inp = false -> aiToggled inp = false ->
      RenderGame inp s = s).
Proof.
  intros Hai Hcp.
  assert (forall idx, disabled s idx = true) as Hdis
    by (intros idx; by apply disabled_ai_turn).
  split; [done|]. split.
  - intros pressed. by apply DrawBoardUI_all_disabled.
  - intros inp Hreset Htoggle. unfold RenderGame.
    rewrite Hreset, Htoggle. destruct s as [b cp over w ai g].
    by apply DrawBoardUI_all_disabled.
Qed.

(** ** The AI's answer to a click *)



Lemma cell_before_set (b : Board) (e x : nat) (m v : Z) :
  (e < length b)%nat -> v <> m ->
  cell (set_cell b e m) x = v -> cell b x = v.
Proof.
  intros He Hvm Hx. destruct (decide (e = x)) as [-> | Hne].
  - rewrite cell_set_eq in Hx by done. congruence.
  - by rewrite cell_set_ne in Hx.
Qed.

Lemma completes_before (target : Z) (b : Board) (e : nat) (m : Z)
  (l : Line) (e' : nat) :
  (e < length b)%nat -> m <> 0 -> m <> target ->
  completes target (set_cell b e m) l e' -> completes target b l e'.
Proof.
  intros He Hm0 Hmt. destruct l as [[i j] k]. unfold completes.
  intros [Hc | [Hc | Hc]]; destruct Hc as (-> & H0 & H1 & H2);
    [left | right; left | right; right];
    repeat split;
    solve [ done
          | apply (cell_before_set b e _ m); [done | congruence | done] ].
Qed.

(** X7.  The AI parries a single threat: entered with the game running on
    a nine-cell board where O cannot win at once and every line X can
    complete has the same Empty cell, [AIMove] puts its O on that cell, and
    afterwards no line holds two X and one Empty cell. *)
Theorem X7_AI_blocks_single_threat {Rng} `{RandomEngine Rng}
  (s : State Rng) :
  board_ok (board s) ->
  gameOver s = false ->
  ~ has_threat 2 (board s) ->
  has_threat 1 (board s) ->
  single_threat 1 (board s) ->
  (exists l e,
      In l WINS /\ completes 1 (board s) l e /\
      board (AIMove s) = set_cell (board s) e 2) /\
  ~ has_threat 1 (board (AIMove s)) /\
  rng (AIMove s) = rng s.
Proof.
  intros Hok Hrun Hno2 Hth Hsingle.
  destruct (has_threat_first 1 _ ltac:(lia) Hth) as (l & e & Hin & Hft).
  pose proof (first_threat_completes _ _ _ _ Hft) as [_ Hc].
  assert (FindImmediateMove 1 (board s) = Some e) as Hf
    by (apply FindImmediateMove_first_threat; [lia | by exists l]).
  apply FindImmediateMove_None in Hno2; [|lia].
  rewrite AIMove_running by done. cbn [board rng].
  rewrite (AIPlace_block _ (rng s) _ Hno2 Hf). cbn [fst snd].
  assert (e < length (board s))%nat as He.
  { apply FindImmediateMove_cell in Hf as [_ Hlt]. rewrite Hok. lia. }
  split; [|split; [|done]].
  - by exists l, e.
  - intros (l' & e' & Hin' & Hc').
    pose proof (completes_empty _ _ _ _ Hc') as Hz'.
    apply completes_before in Hc'; [|done|lia|lia].
    assert (e = e') as <- by (by apply (Hsingle l l')).
    rewrite cell_set_eq in Hz' by done. lia.
Qed.

(** ** Playing against the AI without touching the checkbox *)

Lemma ai_turn_PlaceMark {Rng} `{RandomEngine Rng} (idx : nat)
  (s : State Rng) :
  aiEnabled s = true ->
  aiEnabled (PlaceMark idx s) = true /\
  (gameOver (PlaceMark idx s) = false -> currentPlayer (PlaceMark idx s) = 1).
Proof.
  intros Hai. unfold PlaceMark. rewrite Hai.
  destruct (negb (CheckWinner (set_cell (board s) idx (currentPlayer s)) =? 0)
            || CheckDraw (set_cell (board s) idx (currentPlayer s)))
    eqn:Hover; simpl.
  - split; [done | discriminate].
  - rewrite AIMove_running by done. simpl. split; [done|].
    by intros ->.
Qed.

Lemma ai_turn_DrawCell {Rng} `{RandomEngine Rng} (p : nat -> bool)
  (idx : nat) (s : State Rng) :
  aiEnabled s = true /\ (gameOver s = false -> currentPlayer s = 1) ->
  aiEnabled (DrawCell p idx s) = true /\
  (gameOver (DrawCell p idx s) = false -> currentPlayer (DrawCell p idx s) = 1).
Proof.
  intros [Hai Hturn]. unfold DrawCell.
  destruct (Button _ _); [|done]. by apply ai_turn_PlaceMark.
Qed.

Lemma ai_turn_RenderGame {Rng} `{RandomEngine Rng} (inp : Input)
  (s : State Rng) :
  aiToggled inp = false ->
  aiEnabled s = true /\ (gameOver s = false -> currentPlayer s = 1) ->
  aiEnabled (RenderGame inp s) = true /\
  (gameOver (RenderGame inp s) = false ->
   currentPlayer (RenderGame inp s) = 1).
Proof.
  intros Htoggle Hs. rewrite RenderGame_controls, DrawBoardUI_unfold.
  repeat apply ai_turn_DrawCell.
  unfold RenderControls. rewrite Htoggle.
  destruct (resetPressed inp); simpl; [by destruct Hs | done].
Qed.

Lemma ai_turn_run {Rng} `{RandomEngine Rng} (t : Z) (frames : list Input) :
  no_toggle frames ->
  aiEnabled (run t frames) = true /\
  (gameOver (run t frames) = false -> currentPlayer (run t frames) = 1).
Proof.
  unfold run, no_toggle. intros Hframes.
  assert (aiEnabled (GameStartUp t static_state) = true /\
          (gameOver (GameStartUp t static_state) = false ->
           currentPlayer (GameStartUp t static_state) = 1)) as Hinit
    by done.
  revert Hinit. generalize (GameStartUp t static_state).
  induction Hframes as [| inp frames Hno _ IH]; intros s Hs; [done|].
  simpl. apply IH. by apply ai_turn_RenderGame.
Qed.

Lemma outcome_ok_run {Rng} `{RandomEngine Rng} (t : Z)
  (frames : list Input) :
  outcome_ok (run t frames).
Proof. unfold run. apply outcome_ok_frames, outcome_ok_GameStartUp. Qed.

(** X8.  As long as the checkbox is never clicked the AI stays enabled,
    and whenever the game is running it is the human's turn: the status
    reads "Turn: Player 1 (X)" and at least one board button — every Empty
    cell's — is enabled, so the board is never locked. *)
Theorem X8_human_to_move_in_AI_mode {Rng} `{RandomEngine Rng} (t : Z)
  (frames : list Input) :
  no_toggle frames ->
  aiEnabled (run t frames) = true /\
  (gameOver (run t frames) = false ->
   currentPlayer (run t frames) = 1 /\
   status_line (run t frames) = "Turn: Player 1 (X)"%string /\
   (forall i, cell (board (run t frames)) i = 0 ->
              disabled (run t frames) i = false) /\
   (exists i, (i < 9)%nat /\ disabled (run t frames) i = false)).
Proof.
  intros Hframes. destruct (ai_turn_run t frames Hframes) as [Hai Hturn].
  split; [done|]. intros Hrun. specialize (Hturn Hrun).
  assert (forall i, cell (board (run t frames)) i = 0 ->
                    disabled (run t frames) i = false) as Hen.
  { intros i Hz. unfold disabled. by rewrite Hrun, Hz, Hai, Hturn. }
  split; [done|]. split; [|split; [done|]].
  - unfold status_line. by rewrite Hrun, Hai, Hturn.
  - destruct (running_facts _ (outcome_ok_run t frames) Hrun)
      as (_ & _ & _ & Hnf).
    apply not_full_empty in Hnf as (i & Hi & Hz).
    exists i. split; [done | by apply Hen].
Qed.

(** ** A click in a two-player game *)

(** X9.  With the AI disabled, a click on an enabled cell of a consistent
    position places exactly the current player's mark there and nothing
    else (the random engine is not consulted); the winner afterwards is
    nobody or the player who clicked; if the game goes on the turn passes
    to the other player, and if it ends [currentPlayer] stays. *)
Theorem X9_two_player_click {Rng} `{RandomEngine Rng} (s : State Rng)
  (idx : nat) :
  outcome_ok s ->
  (idx < 9)%nat ->
  aiEnabled s = false ->
  disabled s idx = false ->
  board (DrawBoardUI (click idx) s)
    = set_cell (board s) idx (currentPlayer s) /\
  rng (DrawBoardUI (click idx) s) = rng s /\
  aiEnabled (DrawBoardUI (click idx) s) = false /\
  (winner (DrawBoardUI (click idx) s) = 0 \/
   winner (DrawBoardUI (click idx) s) = currentPlayer s) /\
  (gameOver (DrawBoardUI (click idx) s) = false ->
   currentPlayer (DrawBoardUI (click idx) s)
   = if currentPlayer s =? 1 then 2 else 1) /\
  (gameOver (DrawBoardUI (click idx) s) = true ->
   currentPlayer (DrawBoardUI (click idx) s) = currentPlayer s).
Proof.
  intros Hout Hidx Hai Hen.
  destruct (disabled_false s idx Hen) as (Hrun & Hz & _).
  destruct (running_facts s Hout Hrun) as (_ & Hw0 & _ & _).
  assert (idx < length (board s))%nat as Hlen
    by (rewrite (proj1 Hout); lia).
  pose proof (place_winner_cases (board s) idx (currentPlayer s) Hw0 Hlen)
    as Hcases.
  rewrite DrawBoardUI_click.
  apply Nat.ltb_lt in Hidx. rewrite Hidx.
  rewrite (DrawCell_enabled idx s Hen).
  unfold PlaceMark. rewrite Hai.
  destruct (negb (CheckWinner (set_cell (board s) idx (currentPlayer s)) =? 0)
            || CheckDraw (set_cell (board s) idx (currentPlayer s)));
    simpl; repeat split; try done.
Qed.

(** ** The status line *)

Lemma status_line_over {Rng} (s : State Rng) :
  (status_line s = "Result: Draw"%string <->
   gameOver s = true /\ winner s = 0) /\
  (status_line s = "Winner: Player 1 (X)"%string <->
   gameOver s = true /\ winner s = 1) /\
  (status_line s = "Winner: AI (O)"%string \/
   status_line s = "Winner: Player 2 (O)"%string <->
   gameOver s = true /\ winner s <> 0 /\ winner s <> 1).
Proof.
  unfold status_line.
  destruct (gameOver s); destruct (aiEnabled s);
    destruct (Z.eqb_spec (currentPlayer s) 1);
    destruct (Z.eqb_spec (winner s) 0);
    destruct (Z.eqb_spec (winner s) 1);
    cbn; (split; [|split]); (split; intros Hx);
    try (destruct Hx as [Hx | Hx]); try discriminate Hx;
    try (destruct Hx as (Hx & Hy & Hz)); try (destruct Hx as (Hx & Hy));
    try discriminate; try congruence;
    try (repeat split; first [done | congruence | lia]);
    first [left; reflexivity | right; reflexivity].
Qed.

Lemma status_line_inv {Rng} (s : State Rng) :
  game_inv s ->
  (status_line s = "Result: Draw"%string <->
   full (board s) /\ ~ exists l m, In l WINS /\ uniform_line (board s) l m) /\
  (status_line s = "Winner: Player 1 (X)"%string <->
   exists l, In l WINS /\ uniform_line (board s) l 1) /\
  (status_line s = "Winner: AI (O)"%string \/
   status_line s = "Winner: Player 2 (O)"%string <->
   exists l, In l WINS /\ uniform_line (board s) l 2).
Proof.
  intros (Hout & Hval & _ & Huniq & _).
  destruct (status_line_over s) as (Hdraw & Hx & Ho).
  destruct (outcome_ok_spec s Hout) as (Hover & Hline).
  pose proof (proj1 (proj2 Hout)) as Hw.
  assert (winner s = 0 <->
          ~ exists l m, In l WINS /\ uniform_line (board s) l m) as Hnone.
  { rewrite Hw. unfold CheckWinner. rewrite CheckWinner_from_none. split.
    - intros Hno (l & m & Hin & Hu). by apply (Hno l m).
    - intros Hno l m Hin Hu. apply Hno. by exists l, m. }
  assert (valid_cell (winner s)) as Hvw
    by (rewrite Hw; by apply CheckWinner_valid).
  split; [|split].
  - rewrite Hdraw, Hover, <- Hnone. split.
    + intros [[Hnz | Hfull] Hz]; [congruence | done].
    + intros [Hfull Hz]. split; [by right | done].
  - rewrite Hx. split.
    + intros [_ H1]. rewrite <- H1. apply Hline. lia.
    + intros (l & Hin & Hu). pose proof (Huniq l 1 Hin Hu) as H1.
      split; [apply Hover; left; lia | done].
  - rewrite Ho. split.
    + intros (_ & Hn0 & Hn1).
      assert (winner s = 2) as H2
        by (destruct Hvw as [? | [? | ?]]; congruence).
      rewrite <- H2. by apply Hline.
    + intros (l & Hin & Hu). pose proof (Huniq l 2 Hin Hu) as H2.
      split; [apply Hover; left; lia | lia].
Qed.

(** X10.  The status text of a frame tells the truth about the board it is
    drawn with (the reached state after the frame's Reset and checkbox):
    it reads "Result: Draw" exactly when no cell is Empty and no win line
    is uniform, "Winner: Player 1 (X)" exactly when some win line is all X,
    and "Winner: AI (O)" or "Winner: Player 2 (O)" exactly when some win
    line is all O. *)
Theorem X10_status_line_truthful {Rng} `{RandomEngineSpec Rng} (t : Z)
  (frames : list Input) (inp : Input) :
  (status_line (RenderControls inp (run t frames)) = "Result: Draw"%string <->
   full (board (RenderControls inp (run t frames))) /\
   ~ exists l m,
       In l WINS /\
       uniform_line (board (RenderControls inp (run t frames))) l m) /\
  (status_line (RenderControls inp (run t frames))
   = "Winner: Player 1 (X)"%string <->
   exists l,
     In l WINS /\
     uniform_line (board (RenderControls inp (run t frames))) l 1) /\
  (status_line (RenderControls inp (run t frames)) = "Winner: AI (O)"%string \/
   status_line (RenderControls inp (run t frames))
   = "Winner: Player 2 (O)"%string <->
   exists l,
     In l WINS /\
     uniform_line (board (RenderControls inp (run t frames))) l 2).
Proof.
  apply status_line_inv, game_inv_RenderControls, game_inv_run.
Qed.

(** ** The labels of the board buttons *)



(** ** FindImmediateMove finds the winning cells *)

(** A line made uniform by a new mark on a board without a uniform line
    was one mark short of it. *)
Lemma uniform_after_completes (b : Board) (l : Line) (e : nat) (m : Z) :
  CheckWinner b = 0 -> (e < length b)%nat -> cell b e = 0 ->
  In l WINS -> uniform_line (set_cell b e m) l m ->
  completes m b l e.
Proof.
  intros Hw0 He Hz Hin Hu.
  unfold CheckWinner in Hw0. rewrite CheckWinner_from_none in Hw0.
  assert (~ uniform_line b l m) as Hnot by (by apply Hw0).
  destruct l as [[i j] k].
  destruct (WINS_range i j k Hin) as (_ & Hij & Hik & Hjk).
  destruct Hu as (Hm & Hi & Hj & Hk).
  destruct (decide (e = i)) as [-> | Hei];
    [|destruct (decide (e = j)) as [-> | Hej];
      [|destruct (decide (e = k)) as [-> | Hek]]].
  - left. rewrite cell_set_ne in Hj, Hk by done. by repeat split.
  - right. left. rewrite cell_set_ne in Hi, Hk by done. by repeat split.
  - right. right. rewrite cell_set_ne in Hi, Hj by done. by repeat split.
  - rewrite cell_set_ne in Hi, Hj, Hk by done.
    destruct Hnot. by repeat split.
Qed.

(** X12.  [FindImmediateMove] detects a win in one exactly: on a nine-cell
    board without a uniform line, for X or for O, it returns a cell if and
    only if some Empty cell wins the game for that mark, and the cell it
    returns is Empty and wins. *)
Theorem X12_FindImmediateMove_wins (target : Z) (b : Board) :
  target = 1 \/ target = 2 ->
  board_ok b ->
  CheckWinner b = 0 ->
  ((exists e, FindImmediateMove target b = Some e) <->
   (exists e, (e < 9)%nat /\ cell b e = 0 /\
              CheckWinner (set_cell b e target) = target)) /\
  (forall e,
      FindImmediateMove target b = Some e ->
      (e < 9)%nat /\ cell b e = 0 /\
      CheckWinner (set_cell b e target) = target).
Proof.
  intros Ht Hok Hw0.
  assert (target <> 0) as Hnz by lia.
  assert (forall e,
             FindImmediateMove target b = Some e ->
             (e < 9)%nat /\ cell b e = 0 /\
             CheckWinner (set_cell b e target) = target) as Hsound.
  { intros e Hf.
    destruct (FindImmediateMove_cell _ _ _ Hf) as [Hz Hlt].
    apply FindImmediateMove_first_threat in Hf as [l Hft]; [|done].
    destruct (first_threat_completes _ _ _ _ Hft) as [Hin Hc].
    repeat split; [done | done |].
    apply (CheckWinner_after_completion b l); try done.
    rewrite Hok. lia. }
  split; [|done]. split.
  - intros [e Hf]. exists e. by apply Hsound.
  - intros (e & Hlt & Hz & Hwin).
    assert (e < length b)%nat as He by (rewrite Hok; lia).
    assert (CheckWinner (set_cell b e target) <> 0) as Hwnz by congruence.
    destruct (CheckWinner_from_hit _ _ Hwnz) as (l & Hin & Hu).
    fold (CheckWinner (set_cell b e target)) in Hu. rewrite Hwin in Hu.
    pose proof (uniform_after_completes b l e target Hw0 He Hz Hin Hu) as Hc.
    destruct (FindImmediateMove target b) as [e' |] eqn:Hf; [by exists e'|].
    apply FindImmediateMove_None in Hf; [|done].
    destruct Hf. by exists l, e.
Qed.

(** ** A finished game *)

Lemma disabled_game_over {Rng} (s : State Rng) (idx : nat) :
  gameOver s = true -> disabled s idx = true.
Proof. unfold disabled. by intros ->. Qed.

(** X13.  A finished game stays as it is until Reset: over any number of
    frames in which Reset is not pressed, whatever is clicked, the board,
    the winner, the game-over flag, the turn and the random engine do not
    change (only the checkbox still toggles [aiEnabled]). *)
Theorem X13_game_over_is_final {Rng} `{RandomEngine Rng}
  (frames : list Input) (s : State Rng) :
  gameOver s = true ->
  Forall (fun inp => resetPressed inp = false) frames ->
  board (foldl (fun s inp => RenderGame inp s) s frames) = board s /\
  winner (foldl (fun s inp => RenderGame inp s) s frames) = winner s /\
  gameOver (foldl (fun s inp => RenderGame inp s) s frames) = true /\
  currentPlayer (foldl (fun s inp => RenderGame inp s) s frames)
  = currentPlayer s /\
  rng (foldl (fun s inp => RenderGame inp s) s frames) = rng s.
Proof.
  intros Hover Hframes. revert s Hover.
  induction Hframes as [| inp frames Hno _ IH]; intros s Hover; [done|].
  simpl.
  assert (RenderGame inp s = RenderControls inp s) as Hstep.
  { rewrite RenderGame_controls. apply DrawBoardUI_all_disabled.
    intros idx. apply disabled_game_over.
    unfold RenderControls. by rewrite Hno. }
  rewrite Hstep.
  assert (gameOver (RenderControls inp s) = true) as Hover'
    by (unfold RenderControls; by rewrite Hno).
  destruct (IH _ Hover') as (Hb & Hw & Hg & Hc & Hr).
  rewrite Hb, Hw, Hg, Hc, Hr.
  unfold RenderControls. by rewrite Hno.
Qed.

(** ** The further properties on concrete runs *)

Lemma X1_witness :
  cell (board (foldl (fun s inp => RenderGame inp s) before_threat_state
                     [mkInput false false (click 8);
                      mkInput false true (click 2)])) 0
  = cell (board before_threat_state) 0.
Proof.
  apply (@X1_marks_are_permanent Z counter_engine counter_engine_spec).
  - repeat constructor.
  - vm_compute. discriminate.
Defined.

Lemma X2_witness :
  (forall i, valid_cell (cell (board (run 7 x_won_frames)) i)) /\
  (currentPlayer (run 7 x_won_frames) = 1 \/
   currentPlayer (run 7 x_won_frames) = 2) /\
  valid_cell (winner (run 7 x_won_frames)).
Proof.
  apply (@X2_reachable_values Z counter_engine counter_engine_spec).
Defined.

Lemma X3_witness :
  (count_of 1 (board (run 7 x_won_frames))
   = count_of 2 (board (run 7 x_won_frames)) \/
   count_of 1 (board (run 7 x_won_frames))
   = S (count_of 2 (board (run 7 x_won_frames)))) /\
  (gameOver (run 7 x_won_frames) = false ->
   (currentPlayer (run 7 x_won_frames) = 1 <->
    count_of 1 (board (run 7 x_won_frames))
    = count_of 2 (board (run 7 x_won_frames)))).
Proof.
  apply (@X3_reachable_balance Z counter_engine counter_engine_spec).
Defined.

Lemma X4_witness :
  (forall l m,
      In l WINS -> uniform_line (board (run 7 x_won_frames)) l m ->
      m = winner (run 7 x_won_frames)) /\
  (forall l l' m m',
      In l WINS -> In l' WINS ->
      uniform_line (board (run 7 x_won_frames)) l m ->
      uniform_line (board (run 7 x_won_frames)) l' m' -> m = m').
Proof.
  apply (@X4_reachable_single_winner Z counter_engine counter_engine_spec).
Defined.

Lemma X5_witness :
  RenderGame (mkInput false false (click 4)) (run 7 lock_frames)
  = run 7 lock_frames.
Proof.
  apply (X5_board_locked_on_AI_turn (run 7 lock_frames)).
  - reflexivity.
  - vm_compute. discriminate.
  - reflexivity.
  - reflexivity.
Defined.


Lemma X7_witness :
  (exists l e,
      In l WINS /\ completes 1 (board block_state) l e /\
      board (AIMove block_state) = set_cell (board block_state) e 2) /\
  ~ has_threat 1 (board (AIMove block_state)) /\
  rng (AIMove block_state) = rng block_state.
Proof.
  apply (X7_AI_blocks_single_threat block_state).
  - reflexivity.
  - reflexivity.
  - apply FindImmediateMove_None; [lia | reflexivity].
  - exists (0, 1, 2)%nat, 2%nat. split; [by left|].
    right. right. repeat split; reflexivity.
  - assert (forall l e, In l WINS -> completes 1 (board block_state) l e ->
                        e = 2%nat) as Hall.
    { intros l e Hin Hc. unfold WINS in Hin. simpl in Hin.
      repeat (destruct Hin as [<- | Hin];
              [destruct Hc as [Hc | [Hc | Hc]];
               destruct Hc as (-> & H0 & H1 & H2);
               vm_compute in H0, H1, H2; congruence|]).
      destruct Hin. }
    intros l l' e e' Hin Hin' Hc Hc'.
    rewrite (Hall l e Hin Hc), (Hall l' e' Hin' Hc'). reflexivity.
Defined.

Lemma X8_witness :
  aiEnabled (run 7 [mkInput false false (click 0);
                    mkInput true false (click 4)]) = true.
Proof.
  apply (X8_human_to_move_in_AI_mode 7
           [mkInput false false (click 0); mkInput true false (click 4)]).
  repeat constructor.
Defined.

Lemma X9_witness :
  board (DrawBoardUI (click 2) two_player_state)
    = set_cell (board two_player_state) 2 (currentPlayer two_player_state) /\
  rng (DrawBoardUI (click 2) two_player_state) = rng two_player_state /\
  aiEnabled (DrawBoardUI (click 2) two_player_state) = false /\
  (winner (DrawBoardUI (click 2) two_player_state) = 0 \/
   winner (DrawBoardUI (click 2) two_player_state)
   = currentPlayer two_player_state) /\
  (gameOver (DrawBoardUI (click 2) two_player_state) = false ->
   currentPlayer (DrawBoardUI (click 2) two_player_state)
   = if currentPlayer two_player_state =? 1 then 2 else 1) /\
  (gameOver (DrawBoardUI (click 2) two_player_state) = true ->
   currentPlayer (DrawBoardUI (click 2) two_player_state)
   = currentPlayer two_player_state).
Proof.
  apply (X9_two_player_click two_player_state 2).
  - repeat split; reflexivity.
  - lia.
  - reflexivity.
  - reflexivity.
Defined.

Lemma X10_witness :
  status_line (RenderControls (mkInput false false (fun _ => false))
                              (run 7 x_won_frames))
  = "Winner: Player 1 (X)"%string <->
  exists l,
    In l WINS /\
    uniform_line (board (RenderControls (mkInput false false (fun _ => false))
                                        (run 7 x_won_frames))) l 1.
Proof.
  apply (@X10_status_line_truthful Z counter_engine counter_engine_spec).
Defined.


Lemma X12_witness :
  (exists e, FindImmediateMove 2 (board both_threat_state) = Some e) <->
  (exists e, (e < 9)%nat /\ cell (board both_threat_state) e = 0 /\
             CheckWinner (set_cell (board both_threat_state) e 2) = 2).
Proof.
  apply (X12_FindImmediateMove_wins 2 (board both_threat_state));
    [by right | reflexivity | reflexivity].
Defined.

Lemma X13_witness :
  board (foldl (fun s inp => RenderGame inp s) x_won_state
               [mkInput false true (click 2); mkInput false false (click 6)])
  = board x_won_state.
Proof.
  apply (X13_game_over_is_final
           [mkInput false true (click 2); mkInput false false (click 6)]
           x_won_state).
  - reflexivity.
  - repeat constructor.
Defined.

(** C4 as stated fails on the handler: applied to the occupied cell 0 of the
    finished game [x_won_state], it replaces O's mark by X's, so the state
    is not left unchanged. *)
Lemma C4_counterexample :
  gameOver x_won_state = true /\
  cell (board x_won_state) 0 = 2 /\
  cell (board (PlaceMark 0 x_won_state)) 0 = 1 /\
  PlaceMark 0 x_won_state <> x_won_state.
Proof.
  repeat split; try reflexivity.
  intros Heq. apply (f_equal (fun s => cell (board s) 0)) in Heq.
  vm_compute in Heq. discriminate.
Qed.

Lemma C4_witness :
  DrawBoardUI (click 0) x_won_state = x_won_state /\
  cell (board (PlaceMark 0 x_won_state)) 0 = currentPlayer x_won_state.
Proof.
  destruct (@C4_gate_blocks_illegal_click Z counter_engine
              counter_engine_spec x_won_state 0 (or_introl eq_refl))
    as [(_ & _ & Hgate) Hbody].
  split; [exact Hgate|].
  apply Hbody; [simpl; lia | vm_compute; discriminate].
Defined.
